(** * gigachat: authenticated dispatch and event-stream decoding

    A shallow embedding of [gigachat/client.py], [gigachat/api/post_chat.py]
    and [gigachat/api/stream_chat.py], and the properties of the
    retry-once dispatcher and of the line decoder proved about it.

    Layout: Python values and [str.partition]; requests, responses and
    exceptions; the collaborators that are imported but not defined in
    these files (pydantic models, httpx, the two token endpoints) as type
    classes; a state/exception/journal monad; the two endpoint modules;
    the client; a scripted remote used to run the code on concrete
    inputs; the theorems. *)

From Stdlib Require Import Ascii.
From stdpp Require Import gmap strings list.

Open Scope string_scope.
Open Scope Z_scope.
Open Scope list_scope.
Set Warnings "-register-all".

(** ** Python values *)

(** Truthiness of an [Optional[str]]: [None] and [""] are falsy. *)
Definition truthy (o : option string) : bool :=
  match o with
  | Some (String _ _) => true
  | _ => false
  end.

(** [strip_prefix p s] is the rest of [s] after its prefix [p], if any. *)
Fixpoint strip_prefix (p s : string) : option string :=
  match p, s with
  | EmptyString, _ => Some s
  | String a p', String b s' => if Ascii.eqb a b then strip_prefix p' s' else None
  | String _ _, EmptyString => None
  end.

(** First occurrence of [sep] in [s]: the text before it and after it. *)
Fixpoint find_sep (sep s : string) : option (string * string) :=
  match strip_prefix sep s with
  | Some rest => Some (EmptyString, rest)
  | None =>
      match s with
      | EmptyString => None
      | String c s' =>
          match find_sep sep s' with
          | Some (before, rest) => Some (String c before, rest)
          | None => None
          end
      end
  end.

(** [s.partition(sep)] for a non-empty [sep]: split at the first
    occurrence; when there is none the result is [(s, "", "")]. *)
Definition str_partition (sep s : string) : string * string * string :=
  match find_sep sep s with
  | Some (before, rest) => (before, sep, rest)
  | None => (s, "", "")
  end.

(** ** Requests, responses, exceptions *)

(** The fields of [Chat] these files touch: [model] is assigned by
    [_parse_chat], [stream] is excluded or forced by the endpoints; the
    remaining fields travel as an opaque body. [None] is an unset field,
    which [dict(exclude_none=True)] leaves out. *)
Module Chat.
Record t (Body : Type) := mk { model : option string; stream : option bool; body : Body }.
Arguments mk {Body} _ _ _.
Arguments model {Body} _.
Arguments stream {Body} _.
Arguments body {Body} _.
End Chat.

(** The keyword arguments handed to [httpx]: method, url, json, headers. *)
Record request (Body : Type) := mk_request {
  method : string;
  url : string;
  json : Chat.t Body;
  headers : gmap string string
}.
Arguments mk_request {Body} _ _ _ _.
Arguments method {Body} _.
Arguments url {Body} _.
Arguments json {Body} _.
Arguments headers {Body} _.

(** What these files read of an [httpx.Response]. Header names are
    lower-case, as [httpx] normalises them. [lines] is what
    [iter_lines()] delivers and [broken] the transport failure, if any,
    that it raises after the last delivered line. *)
Record response := mk_response {
  r_url : string;
  status_code : Z;
  r_headers : gmap string string;
  content : string;
  lines : list string;
  broken : option string
}.

(** Arguments of [AuthenticationError] and [ResponseError]. *)
Record error_args := mk_args {
  e_url : string;
  e_status : Z;
  e_content : string;
  e_headers : gmap string string
}.

Inductive exception :=
| AuthenticationError (a : error_args)   (* gigachat.exceptions *)
| ResponseError (a : error_args)         (* gigachat.exceptions *)
| TransportError (got : string)          (* httpx.TransportError of _check_content_type *)
| HTTPError (kind : string)              (* raised by httpx itself *)
| ValidationError                        (* raised by a pydantic model *)
| AuthBackendError (status : Z).         (* a token endpoint refused *)

Definition is_authentication_error (e : exception) : bool :=
  match e with
  | AuthenticationError _ => true
  | _ => false
  end.

Inductive result (A : Type) :=
| Ok (a : A)
| Raise (e : exception).
Arguments Ok {A} _.
Arguments Raise {A} _.

Definition OK : Z := 200.
Definition UNAUTHORIZED : Z := 401.

(** ** Collaborators *)

(** The pydantic models: building a [ChatCompletion] from
    [response.json()] and [ChatCompletionChunk.parse_raw(value)] return
    a record or raise. *)
Class Models := {
  Body : Type;
  ChatCompletion : Type;
  ChatCompletionChunk : Type;
  ChatCompletion_of_json : string -> option ChatCompletion;
  parse_raw : string -> option ChatCompletionChunk
}.

Module AccessToken.
Record t := mk { access_token : string; expires_at : Z }.
End AccessToken.

Module Token.
Record t := mk { tok : string; exp : Z }.
End Token.

(** The remote side: [httpx.Client.request], [httpx.Client.stream],
    [post_auth.sync], [post_token.sync] and their [asyncio] twins, each
    a transition of the remote state [W]. [httpx] raises only its own
    exceptions; the token endpoints may raise anything. *)
Class Transport `{Models} := {
  W : Type;
  client_request : request Body -> W -> (string + response) * W;
  client_stream : request Body -> W -> (string + response) * W;
  post_auth_sync : string -> string -> string -> W -> result AccessToken.t * W;
  post_token_sync : string -> string -> W -> result Token.t * W;
  aclient_request : request Body -> W -> (string + response) * W;
  aclient_stream : request Body -> W -> (string + response) * W;
  post_auth_asyncio : string -> string -> string -> W -> result AccessToken.t * W;
  post_token_asyncio : string -> string -> W -> result Token.t * W
}.

(** ** The client object and the journal *)

Module Settings.
Record t := mk {
  auth_url : string;
  credentials : option string;
  scope : string;
  access_token : option string;
  model : option string;
  user : option string;
  password : option string;
  use_auth : bool
}.
End Settings.

(** [_BaseClient]: the settings and the held token. *)
Record _BaseClient := mk_client {
  _settings : Settings.t;
  _access_token : option AccessToken.t
}.

(** [_BaseClient.__init__], after [Settings] has been built. *)
Definition __init__ (settings : Settings.t) : _BaseClient :=
  mk_client settings
    (if truthy (Settings.access_token settings)
     then Some (AccessToken.mk (default "" (Settings.access_token settings)) 0)
     else None).

Section Journal.
Context `{Transport}.

(** What a run does, in order. The leaves are the effects of the source:
    requests handed to [httpx], token exchanges, log records, chunks
    yielded to the consumer. [Reset] and [Refresh] mark the entry of
    [_reset_token] and [_update_token]; [Call] is one invocation of the
    callable given to the dispatcher, with what that invocation did. *)
Inductive event :=
| Request (kwargs : request Body)
| Stream (kwargs : request Body)
| PostAuth (url credentials scope : string)
| PostToken (user password : string)
| Log (level message : string)
| Yield (chunk : ChatCompletionChunk)
| Reset
| Refresh
| Call (inner : list event).

(** The state a method runs in: the client object and the remote. *)
Record state := mk_state { self : _BaseClient; world : W }.

(** A method: from a state to a value or a raised exception, the next
    state, and the journal of what it did. *)
Definition M (A : Type) : Type := state -> result A * state * list event.

Definition ret {A} (a : A) : M A := fun st => (Ok a, st, []).

Definition raise {A} (e : exception) : M A := fun st => (Raise e, st, []).

Definition bind {A B} (m : M A) (k : A -> M B) : M B :=
  fun st =>
    match m st with
    | (Ok a, st1, j1) => let '(r, st2, j2) := k a st1 in (r, st2, j1 ++ j2)
    | (Raise e, st1, j1) => (Raise e, st1, j1)
    end.

Definition emit (e : event) : M unit := fun st => (Ok tt, st, [e]).

(** A pure computation that may raise. *)
Definition lift {A} (r : result A) : M A := fun st => (r, st, []).

(** [try: body / except AuthenticationError: handler]. What [body] did
    before raising stays done. *)
Definition try_except_AuthenticationError {A} (body : M A) (handler : M A) : M A :=
  fun st =>
    match body st with
    | (Raise (AuthenticationError _), st1, j1) =>
        let '(r, st2, j2) := handler st1 in (r, st2, j1 ++ j2)
    | other => other
    end.

(** One invocation [call()] of a callable. *)
Definition invoke {A} (call : M A) : M A :=
  fun st => let '(r, st1, j) := call st in (r, st1, [Call j]).

End Journal.

Notation "'let*' x ':=' m 'in' k" := (bind m (fun x => k))
  (at level 10, x name, m at level 100, k at level 200).
Notation "m ';;' k" := (bind m (fun _ => k))
  (at level 100, k at level 200, right associativity).

(** [for x in xs: body]. *)
Fixpoint for_ `{Transport} {A} (xs : list A) (body : A -> M unit) : M unit :=
  match xs with
  | [] => ret tt
  | x :: xs' => body x ;; for_ xs' body
  end.

(** How a block of statements ends: by [return v], or by falling
    through to the statement after it. *)
Inductive flow (T : Type) :=
| Returned (v : T)
| Fell.
Arguments Returned {T} _.
Arguments Fell {T}.

(** ** gigachat/api/post_chat.py *)

Module post_chat.
Section post_chat.
Context `{Transport}.

Definition _get_kwargs (chat : Chat.t Body)
    (access_token client_id session_id request_id : option string) : request Body :=
  let headers : gmap string string := ∅ in
  let headers :=
    if truthy access_token
    then <["Authorization" := "Bearer " +:+ default "" access_token]> headers else headers in
  let headers :=
    if truthy client_id then <["X-Client-ID" := default "" client_id]> headers else headers in
  let headers :=
    if truthy session_id then <["X-Session-ID" := default "" session_id]> headers else headers in
  let headers :=
    if truthy request_id then <["X-Request-ID" := default "" request_id]> headers else headers in
  {| method := "POST";
     url := "/chat/completions";
     json := Chat.mk (Chat.model chat) None (Chat.body chat);
     headers := headers |}.

Definition _build_response (response : response) : result ChatCompletion :=
  if status_code response =? OK then
    match ChatCompletion_of_json (content response) with
    | Some completion => Ok completion
    | None => Raise ValidationError
    end
  else if status_code response =? UNAUTHORIZED then
    Raise (AuthenticationError
             (mk_args (r_url response) (status_code response) (content response) (r_headers response)))
  else
    Raise (ResponseError
             (mk_args (r_url response) (status_code response) (content response) (r_headers response))).

(** [client.request] applied to the keyword arguments, on the [httpx.Client]. *)
Definition request_ (kwargs : request Body) : M response :=
  fun st =>
    match client_request kwargs (world st) with
    | (inr response, w) => (Ok response, mk_state (self st) w, [Request kwargs])
    | (inl kind, w) => (Raise (HTTPError kind), mk_state (self st) w, [Request kwargs])
    end.

Definition sync (chat : Chat.t Body)
    (access_token client_id session_id request_id : option string) : M ChatCompletion :=
  let kwargs := _get_kwargs chat access_token client_id session_id request_id in
  let* response := request_ kwargs in
  lift (_build_response response).

(** [await client.request] on the [httpx.AsyncClient]. *)
Definition arequest_ (kwargs : request Body) : M response :=
  fun st =>
    match aclient_request kwargs (world st) with
    | (inr response, w) => (Ok response, mk_state (self st) w, [Request kwargs])
    | (inl kind, w) => (Raise (HTTPError kind), mk_state (self st) w, [Request kwargs])
    end.

Definition asyncio (chat : Chat.t Body)
    (access_token client_id session_id request_id : option string) : M ChatCompletion :=
  let kwargs := _get_kwargs chat access_token client_id session_id request_id in
  let* response := arequest_ kwargs in
  lift (_build_response response).

End post_chat.
End post_chat.

(** ** gigachat/api/stream_chat.py *)

Module stream_chat.
Section stream_chat.
Context `{Transport}.

Definition EVENT_STREAM : string := "text/event-stream".

Definition _get_kwargs (chat : Chat.t Body)
    (access_token client_id session_id request_id : option string) : request Body :=
  let headers : gmap string string :=
    <["Cache-Control" := "no-store"]> (<["Accept" := EVENT_STREAM]> ∅) in
  let headers :=
    if truthy access_token
    then <["Authorization" := "Bearer " +:+ default "" access_token]> headers else headers in
  let headers :=
    if truthy client_id then <["X-Client-ID" := default "" client_id]> headers else headers in
  let headers :=
    if truthy session_id then <["X-Session-ID" := default "" session_id]> headers else headers in
  let headers :=
    if truthy request_id then <["X-Request-ID" := default "" request_id]> headers else headers in
  {| method := "POST";
     url := "/chat/completions";
     json := Chat.mk (Chat.model chat) (Some true) (Chat.body chat);
     headers := headers |}.

Definition _parse_chunk (line : string) : result (option ChatCompletionChunk) :=
  let '(name, _, value) := str_partition ": " line in
  if String.eqb name "data" then
    if String.eqb value "[DONE]" then Ok None
    else
      match parse_raw value with
      | Some chunk => Ok (Some chunk)
      | None => Raise ValidationError
      end
  else Ok None.

Definition _check_content_type (response : response) : result unit :=
  let '(content_type, _, _) :=
    str_partition ";" (default "" (r_headers response !! "content-type")) in
  if String.eqb content_type EVENT_STREAM then Ok tt
  else Raise (TransportError content_type).

Definition _check_response (response : response) : result unit :=
  if status_code response =? OK then _check_content_type response
  else if status_code response =? UNAUTHORIZED then
    Raise (AuthenticationError
             (mk_args (r_url response) (status_code response) "" (r_headers response)))
  else
    Raise (ResponseError
             (mk_args (r_url response) (status_code response) "" (r_headers response))).

(** Entering [with client.stream(...) as response] on the [httpx.Client]. *)
Definition stream_ (kwargs : request Body) : M response :=
  fun st =>
    match client_stream kwargs (world st) with
    | (inr response, w) => (Ok response, mk_state (self st) w, [Stream kwargs])
    | (inl kind, w) => (Raise (HTTPError kind), mk_state (self st) w, [Stream kwargs])
    end.

(** [for line in response.iter_lines(): body]: the delivered lines in
    order, then the transport failure if the body broke off. *)
Definition iter_lines (response : response) (body : string -> M unit) : M unit :=
  for_ (lines response) body ;;
  match broken response with
  | Some kind => raise (HTTPError kind)
  | None => ret tt
  end.

(** The loop body: [if chunk := _parse_chunk(line): yield chunk]. A
    parsed chunk is a pydantic object, hence truthy. *)
Definition yield_chunk (line : string) : M unit :=
  let* chunk := lift (_parse_chunk line) in
  match chunk with
  | Some chunk => emit (Yield chunk)
  | None => ret tt
  end.

Definition sync (chat : Chat.t Body)
    (access_token client_id session_id request_id : option string) : M unit :=
  let kwargs := _get_kwargs chat access_token client_id session_id request_id in
  let* response := stream_ kwargs in
  lift (_check_response response) ;;
  iter_lines response yield_chunk.

(** Entering [async with client.stream(...) as response]. *)
Definition astream_ (kwargs : request Body) : M response :=
  fun st =>
    match aclient_stream kwargs (world st) with
    | (inr response, w) => (Ok response, mk_state (self st) w, [Stream kwargs])
    | (inl kind, w) => (Raise (HTTPError kind), mk_state (self st) w, [Stream kwargs])
    end.

(** [async for line in response.aiter_lines(): body]. *)
Definition aiter_lines (response : response) (body : string -> M unit) : M unit :=
  for_ (lines response) body ;;
  match broken response with
  | Some kind => raise (HTTPError kind)
  | None => ret tt
  end.

Definition asyncio (chat : Chat.t Body)
    (access_token client_id session_id request_id : option string) : M unit :=
  let kwargs := _get_kwargs chat access_token client_id session_id request_id in
  let* response := astream_ kwargs in
  lift (_check_response response) ;;
  aiter_lines response yield_chunk.

End stream_chat.
End stream_chat.

(** ** gigachat/client.py *)

Module client.
Section client.
Context `{Transport}.

(** The payload is taken as an already validated [Chat]; [parse_obj]
    copies it, so the caller's object is not the one assigned to. *)
Definition _parse_chat (chat : Chat.t Body) (model : option string) : Chat.t Body :=
  let payload := chat in
  if truthy model then Chat.mk model (Chat.stream payload) (Chat.body payload)
  else payload.

Definition _build_access_token (token : Token.t) : AccessToken.t :=
  AccessToken.mk (Token.tok token) (Token.exp token).

(** *** _BaseClient *)

(** The [token] property. An [AccessToken] object is truthy whatever
    string it holds. *)
Definition token (this : _BaseClient) : option string :=
  if Settings.use_auth (_settings this) then
    match _access_token this with
    | Some access_token => Some (AccessToken.access_token access_token)
    | None => None
    end
  else None.

Definition _use_auth (this : _BaseClient) : bool :=
  Settings.use_auth (_settings this).

Definition _check_validity_token (this : _BaseClient) : bool :=
  match _access_token this with
  | Some _ => true
  | None => false
  end.

(** Reading an attribute or property of [self]. *)
Definition gets {A} (f : _BaseClient -> A) : M A :=
  fun st => (Ok (f (self st)), st, []).

(** [self._access_token = value]. *)
Definition set_access_token (value : option AccessToken.t) : M unit :=
  fun st => (Ok tt, mk_state (mk_client (_settings (self st)) value) (world st), []).

Definition _reset_token : M unit :=
  emit Reset ;;
  set_access_token None.

Definition logger_info (message : string) : M unit := emit (Log "INFO" message).
Definition logger_warning (message : string) : M unit := emit (Log "WARNING" message).

(** *** GigaChatSyncClient *)

Definition post_auth_sync_ (url credentials scope : string) : M AccessToken.t :=
  fun st =>
    let '(r, w) := post_auth_sync url credentials scope (world st) in
    (r, mk_state (self st) w, [PostAuth url credentials scope]).

Definition post_token_sync_ (user password : string) : M Token.t :=
  fun st =>
    let '(r, w) := post_token_sync user password (world st) in
    (r, mk_state (self st) w, [PostToken user password]).

Definition _update_token : M unit :=
  emit Refresh ;;
  let* settings := gets _settings in
  if truthy (Settings.credentials settings) then
    let* access_token :=
      post_auth_sync_ (Settings.auth_url settings)
        (default "" (Settings.credentials settings)) (Settings.scope settings) in
    set_access_token (Some access_token) ;;
    logger_info "OAUTH UPDATE TOKEN"
  else if truthy (Settings.user settings) && truthy (Settings.password settings) then
    let* token :=
      post_token_sync_ (default "" (Settings.user settings))
        (default "" (Settings.password settings)) in
    set_access_token (Some (_build_access_token token)) ;;
    logger_info "UPDATE TOKEN"
  else ret tt.

Definition _decorator {T} (call : M T) : M T :=
  let* r :=
    let* use_auth := gets _use_auth in
    if use_auth then
      let* r :=
        let* valid := gets _check_validity_token in
        if valid then
          try_except_AuthenticationError
            (let* v := invoke call in ret (Returned v))
            (logger_warning "AUTHENTICATION ERROR" ;;
             _reset_token ;;
             ret Fell)
        else ret Fell in
      match r with
      | Returned v => ret (Returned v)
      | Fell => _update_token ;; ret Fell
      end
    else ret Fell in
  match r with
  | Returned v => ret v
  | Fell => invoke call
  end.

Definition chat (payload : Chat.t Body) : M ChatCompletion :=
  let* model := gets (fun this => Settings.model (_settings this)) in
  let chat := _parse_chat payload model in
  _decorator
    (let* access_token := gets token in
     post_chat.sync chat access_token None None None).

(** A generator: its journal is what a consumer that reads it to the
    end observes, [Yield] by [Yield]. *)
Definition stream (payload : Chat.t Body) : M unit :=
  let* model := gets (fun this => Settings.model (_settings this)) in
  let chat := _parse_chat payload model in
  let* r :=
    let* use_auth := gets _use_auth in
    if use_auth then
      let* r :=
        let* valid := gets _check_validity_token in
        if valid then
          try_except_AuthenticationError
            (let* access_token := gets token in
             stream_chat.sync chat access_token None None None ;;
             ret (Returned tt))
            (logger_warning "AUTHENTICATION ERROR" ;;
             _reset_token ;;
             ret Fell)
        else ret Fell in
      match r with
      | Returned v => ret (Returned v)
      | Fell => _update_token ;; ret Fell
      end
    else ret Fell in
  match r with
  | Returned v => ret v
  | Fell =>
      let* access_token := gets token in
      stream_chat.sync chat access_token None None None
  end.

(** *** GigaChatAsyncClient *)

(** [await coroutine]: within one logical call the awaited coroutine
    runs to completion before the caller goes on. *)
Definition await {A} (coroutine : M A) : M A := coroutine.

Definition post_auth_asyncio_ (url credentials scope : string) : M AccessToken.t :=
  fun st =>
    let '(r, w) := post_auth_asyncio url credentials scope (world st) in
    (r, mk_state (self st) w, [PostAuth url credentials scope]).

Definition post_token_asyncio_ (user password : string) : M Token.t :=
  fun st =>
    let '(r, w) := post_token_asyncio user password (world st) in
    (r, mk_state (self st) w, [PostToken user password]).

Definition _aupdate_token : M unit :=
  emit Refresh ;;
  let* settings := gets _settings in
  if truthy (Settings.credentials settings) then
    let* access_token :=
      await (post_auth_asyncio_ (Settings.auth_url settings)
               (default "" (Settings.credentials settings)) (Settings.scope settings)) in
    set_access_token (Some access_token) ;;
    logger_info "OAUTH UPDATE TOKEN"
  else if truthy (Settings.user settings) && truthy (Settings.password settings) then
    let* token :=
      await (post_token_asyncio_ (default "" (Settings.user settings))
               (default "" (Settings.password settings))) in
    set_access_token (Some (_build_access_token token)) ;;
    logger_info "UPDATE TOKEN"
  else ret tt.

Definition _adecorator {T} (acall : M T) : M T :=
  let* r :=
    let* use_auth := gets _use_auth in
    if use_auth then
      let* r :=
        let* valid := gets _check_validity_token in
        if valid then
          try_except_AuthenticationError
            (let* v := await (invoke acall) in ret (Returned v))
            (logger_warning "AUTHENTICATION ERROR" ;;
             _reset_token ;;
             ret Fell)
        else ret Fell in
      match r with
      | Returned v => ret (Returned v)
      | Fell => await _aupdate_token ;; ret Fell
      end
    else ret Fell in
  match r with
  | Returned v => ret v
  | Fell => await (invoke acall)
  end.

Definition achat (payload : Chat.t Body) : M ChatCompletion :=
  let* model := gets (fun this => Settings.model (_settings this)) in
  let chat := _parse_chat payload model in
  let _acall :=
    let* access_token := gets token in
    await (post_chat.asyncio chat access_token None None None) in
  await (_adecorator _acall).

Definition astream (payload : Chat.t Body) : M unit :=
  let* model := gets (fun this => Settings.model (_settings this)) in
  let chat := _parse_chat payload model in
  let* r :=
    let* use_auth := gets _use_auth in
    if use_auth then
      let* r :=
        let* valid := gets _check_validity_token in
        if valid then
          try_except_AuthenticationError
            (let* access_token := gets token in
             stream_chat.asyncio chat access_token None None None ;;
             ret (Returned tt))
            (logger_warning "AUTHENTICATION ERROR" ;;
             _reset_token ;;
             ret Fell)
        else ret Fell in
      match r with
      | Returned v => ret (Returned v)
      | Fell => await _aupdate_token ;; ret Fell
      end
    else ret Fell in
  match r with
  | Returned v => ret v
  | Fell =>
      let* access_token := gets token in
      stream_chat.asyncio chat access_token None None None
  end.

End client.
End client.

(** ** A scripted remote

    Concrete collaborators, to run the code above on explicit inputs. *)

Module Scripted.

(** Modelled from the spec: the chunk and completion models of
    [gigachat.models] are not among the source files, and the spec asks
    of a value only that it be parseable or not. Here a record is kept
    as its JSON text, and a text parses when it is a brace-delimited
    object. *)
Fixpoint ends_with_brace (s : string) : bool :=
  match s with
  | EmptyString => false
  | String c EmptyString => Ascii.eqb c "}"%char
  | String _ s' => ends_with_brace s'
  end.

Definition parse_object (s : string) : option string :=
  match s with
  | String c s' => if Ascii.eqb c "{"%char && ends_with_brace s' then Some s else None
  | EmptyString => None
  end.

#[export] Instance models : Models := {|
  Body := string;
  ChatCompletion := string;
  ChatCompletionChunk := string;
  ChatCompletion_of_json := parse_object;
  parse_raw := parse_object
|}.

(** The remote answers from a script: the responses [httpx] will
    deliver, in order, and the outcomes of the token exchanges. When a
    script runs out the connection fails. *)
Record remote := mk_remote {
  replies : list (string + response);
  grants : list (result AccessToken.t);
  password_grants : list (result Token.t)
}.

Definition next_reply (kwargs : request Body) (w : remote) : (string + response) * remote :=
  match replies w with
  | r :: rs => (r, mk_remote rs (grants w) (password_grants w))
  | [] => (inl "ConnectError", w)
  end.

Definition next_grant (url credentials scope : string) (w : remote)
    : result AccessToken.t * remote :=
  match grants w with
  | g :: gs => (g, mk_remote (replies w) gs (password_grants w))
  | [] => (Raise (HTTPError "ConnectError"), w)
  end.

Definition next_password_grant (user password : string) (w : remote)
    : result Token.t * remote :=
  match password_grants w with
  | g :: gs => (g, mk_remote (replies w) (grants w) gs)
  | [] => (Raise (HTTPError "ConnectError"), w)
  end.

#[export] Instance transport : Transport := {|
  W := remote;
  client_request := next_reply;
  client_stream := next_reply;
  post_auth_sync := next_grant;
  post_token_sync := next_password_grant;
  aclient_request := next_reply;
  aclient_stream := next_reply;
  post_auth_asyncio := next_grant;
  post_token_asyncio := next_password_grant
|}.

Definition reply (status : Z) (content_type : option string) (content : string)
    (lines : list string) : string + response :=
  inr (mk_response "/chat/completions" status
         (match content_type with
          | Some v => {[ "content-type" := v ]}
          | None => ∅
          end)
         content lines None).

(** A client configured for the OAuth exchange, holding a token. *)
Definition oauth_settings (use_auth : bool) : Settings.t :=
  Settings.mk "https://auth.example/oauth" (Some "c2VjcmV0") "GIGACHAT_API_PERS"
    (Some "stale") None None None use_auth.

Definition holding (use_auth : bool) (w : remote) : state :=
  mk_state (__init__ (oauth_settings use_auth)) w.

Definition hello : Chat.t Body := Chat.mk None None "[{role: user, content: hi}]".

Definition fresh : AccessToken.t := AccessToken.mk "fresh" 1700000000000.

(** JSON texts: [q s] is [s] between double quotes. *)
Definition q (s : string) : string := String "034" s +:+ String "034" "".

Definition completion_json : string :=
  "{" +:+ q "choices" +:+ ":[]," +:+ q "created" +:+ ":1700000000,"
  +:+ q "model" +:+ ":" +:+ q "GigaChat" +:+ "," +:+ q "object" +:+ ":"
  +:+ q "chat.completion" +:+ "}".

Definition chunk_json : string :=
  "{" +:+ q "choices" +:+ ":[{" +:+ q "delta" +:+ ":{" +:+ q "content" +:+ ":"
  +:+ q "Hi" +:+ "}," +:+ q "index" +:+ ":0}]," +:+ q "created" +:+ ":1700000000,"
  +:+ q "model" +:+ ":" +:+ q "GigaChat" +:+ "," +:+ q "object" +:+ ":"
  +:+ q "chat.completion.chunk" +:+ "}".

Definition data_line : string := "data: " +:+ chunk_json.

Definition unauthorized : string + response := reply 401 None "" [].

Definition completion : string + response :=
  reply 200 (Some "application/json") completion_json [].

(** A body of event-stream lines under the given Content-Type. *)
Definition body_of (content_type : string) (lines : list string) : response :=
  mk_response "/chat/completions" 200 {[ "content-type" := content_type ]} "" lines None.

(** The token is rejected, the refresh succeeds, the retry is served. *)
Definition rejected_once : state :=
  holding true (mk_remote [unauthorized; completion] [Ok fresh] []).

(** The token is rejected and the token endpoint then refuses. *)
Definition refresh_refused : state :=
  holding true (mk_remote [unauthorized; completion] [Raise (AuthBackendError 500)] []).

(** The token is rejected, refreshed, and the new one rejected too. *)
Definition rejected_twice : state :=
  holding true (mk_remote [unauthorized; unauthorized; completion] [Ok fresh] []).

(** The server fails with a status that is neither OK nor UNAUTHORIZED. *)
Definition server_error : state :=
  holding true (mk_remote [reply 500 None "oops" []] [Ok fresh] []).

(** Authentication is off although the client holds a token. *)
Definition auth_off : state :=
  holding false (mk_remote [completion] [Ok fresh] []).

(** A stream whose sentinel line is followed by a data line. *)
Definition data_after_sentinel : state :=
  holding true
    (mk_remote [inr (body_of "text/event-stream" ["data: [DONE]"; data_line])] [] []).

(** A stream with a malformed data line between two good ones. *)
Definition malformed_in_the_middle : response :=
  body_of "text/event-stream" [data_line; "data: {oops"; data_line].

(** A stream declared with a charset parameter. *)
Definition with_charset : state :=
  holding true
    (mk_remote [inr (body_of "text/event-stream; charset=utf-8" [data_line])] [] []).

(** A JSON body answered to a streaming request. *)
Definition json_instead : state :=
  holding true (mk_remote [inr (body_of "application/json" [data_line])] [] []).

End Scripted.

(** ** Reading a journal *)

Section Reading.
Context `{Transport}.

Definition is_call (e : event) : bool := match e with Call _ => true | _ => false end.
Definition is_refresh (e : event) : bool := match e with Refresh => true | _ => false end.
Definition is_reset (e : event) : bool := match e with Reset => true | _ => false end.
Definition is_stream (e : event) : bool := match e with Stream _ => true | _ => false end.
Definition is_yield (e : event) : bool := match e with Yield _ => true | _ => false end.

(** Token exchanges and log records: what [_update_token] does after
    it has been entered. *)
Definition is_exchange (e : event) : bool :=
  match e with
  | PostAuth _ _ _ | PostToken _ _ | Log _ _ => true
  | _ => false
  end.

(** Number of events of a kind, at the top level of a journal. *)
Fixpoint count (p : event -> bool) (j : list event) : nat :=
  match j with
  | [] => 0%nat
  | e :: j' => ((if p e then 1 else 0) + count p j')%nat
  end.

(** The chunks a consumer has received, in order. *)
Fixpoint yielded (j : list event) : list ChatCompletionChunk :=
  match j with
  | [] => []
  | Yield chunk :: j' => chunk :: yielded j'
  | _ :: j' => yielded j'
  end.

(** A run that comes after the events [j0]. *)
Definition after {A} (j0 : list event) (run : result A * state * list event)
    : result A * state * list event :=
  let '(r, st, j) := run in (r, st, j0 ++ j).

(** The state once the held token has been discarded. *)
Definition discarded (st : state) : state :=
  mk_state (mk_client (_settings (self st)) None) (world st).

(** A response with other lines in its body. *)
Definition with_lines (resp : response) (body : list string) : response :=
  mk_response (r_url resp) (status_code resp) (r_headers resp)
    (content resp) body (broken resp).

(** The dispatch that [_decorator] and [stream] both spell out, over
    an attempt: with authentication on and a token held, try; on
    [AuthenticationError] warn and reset; refresh; attempt again. *)
Definition retry_once {T} (attempt : M T) : M T :=
  fun st =>
    if client._use_auth (self st) then
      if client._check_validity_token (self st) then
        match attempt st with
        | (Raise (AuthenticationError _), st1, j1) =>
            after (j1 ++ [Log "WARNING" "AUTHENTICATION ERROR"; Reset])
              ((client._update_token ;; attempt) (discarded st1))
        | other => other
        end
      else (client._update_token ;; attempt) st
    else attempt st.

(** The callable [chat] hands to [_decorator], and the attempt that
    [stream] spells out twice: the endpoint applied to [self.token] as
    it is when the attempt starts. *)
Definition chat_call (chat : Chat.t Body) : M ChatCompletion :=
  let* access_token := client.gets client.token in
  post_chat.sync chat access_token None None None.

Definition stream_attempt (chat : Chat.t Body) : M unit :=
  let* access_token := client.gets client.token in
  stream_chat.sync chat access_token None None None.

(** The states in which a run of the dispatcher from [st] invokes the
    callable: [st] itself when authentication is off or a token is
    held; the state a successful refresh leaves, when no token is held;
    and the state a successful refresh leaves after a first invocation
    that raised [AuthenticationError]. *)
Inductive invoked_at {T} (call : M T) (st : state) : state -> Prop :=
| invoked_first :
    client._use_auth (self st) = false \/ client._check_validity_token (self st) = true ->
    invoked_at call st st
| invoked_after_refresh st2 j2 :
    client._use_auth (self st) = true ->
    client._check_validity_token (self st) = false ->
    client._update_token st = (Ok tt, st2, j2) ->
    invoked_at call st st2
| invoked_after_retry a st1 j1 st2 j2 :
    client._use_auth (self st) = true ->
    client._check_validity_token (self st) = true ->
    call st = (Raise (AuthenticationError a), st1, j1) ->
    client._update_token (discarded st1) = (Ok tt, st2, j2) ->
    invoked_at call st st2.

End Reading.

(** ** gigachat/api/threads/post_threads_run.py *)

(** What this endpoint imports and these files do not define: the
    options and response models of [gigachat.models.threads], with
    [dict(exclude_none=True)] of the options as a map from keys to JSON
    values, and [build_headers] of [gigachat.api.utils]. *)
Class Threads := {
  JsonValue : Type;
  json_str : string -> JsonValue;
  ThreadRunOptions : Type;
  ThreadRunOptions_dict : ThreadRunOptions -> gmap string JsonValue;
  ThreadRunResponse : Type;
  ThreadRunResponse_of_json : string -> option ThreadRunResponse;
  build_headers : option string -> gmap string string
}.

(** The keyword arguments of a thread run. *)
Record thread_request `{Threads} := mk_thread_request {
  t_method : string;
  t_url : string;
  t_headers : gmap string string;
  t_json : gmap string JsonValue
}.

(** [httpx.Client.request] and its asynchronous twin on such arguments. *)
Class ThreadTransport `{Transport} `{Threads} := {
  client_request_thread : thread_request -> W -> (string + response) * W;
  aclient_request_thread : thread_request -> W -> (string + response) * W
}.

Module post_threads_run.
Section post_threads_run.
Context `{ThreadTransport}.

(** An options object is truthy when it is there. *)
Definition _get_kwargs (thread_id : string) (thread_options : option ThreadRunOptions)
    (access_token : option string) : thread_request :=
  let headers := build_headers access_token in
  let thread_options_dict : gmap string JsonValue := ∅ in
  let thread_options_dict :=
    match thread_options with
    | Some options => ThreadRunOptions_dict options
    | None => thread_options_dict
    end in
  let params :=
    {| t_method := "POST";
       t_url := "/threads/run";
       t_headers := headers;
       t_json := <["thread_id" := json_str thread_id]> thread_options_dict |} in
  params.

Definition _build_response (response : response) : result ThreadRunResponse :=
  if status_code response =? OK then
    match ThreadRunResponse_of_json (content response) with
    | Some run => Ok run
    | None => Raise ValidationError
    end
  else if status_code response =? UNAUTHORIZED then
    Raise (AuthenticationError
             (mk_args (r_url response) (status_code response) (content response) (r_headers response)))
  else
    Raise (ResponseError
             (mk_args (r_url response) (status_code response) (content response) (r_headers response))).

(** The endpoint is given the [httpx] client, not the gigachat one: it
    is a transition of the remote alone. *)
Definition sync (thread_id : string) (thread_options : option ThreadRunOptions)
    (access_token : option string) (w : W) : result ThreadRunResponse * W :=
  let kwargs := _get_kwargs thread_id thread_options access_token in
  match client_request_thread kwargs w with
  | (inr response, w') => (_build_response response, w')
  | (inl kind, w') => (Raise (HTTPError kind), w')
  end.

Definition asyncio (thread_id : string) (thread_options : option ThreadRunOptions)
    (access_token : option string) (w : W) : result ThreadRunResponse * W :=
  let kwargs := _get_kwargs thread_id thread_options access_token in
  match aclient_request_thread kwargs w with
  | (inr response, w') => (_build_response response, w')
  | (inl kind, w') => (Raise (HTTPError kind), w')
  end.

End post_threads_run.
End post_threads_run.

(** ** More scripted clients *)

Module Cases.
Import Scripted.

(** A client given a static token and nothing to refresh it with. *)
Definition static_settings : Settings.t :=
  Settings.mk "https://auth.example/oauth" None "GIGACHAT_API_PERS"
    (Some "static") (Some "GigaChat-Pro") None None true.

(** A client that signs in with a user name and a password. *)
Definition password_settings : Settings.t :=
  Settings.mk "https://auth.example/oauth" None "GIGACHAT_API_PERS"
    None None (Some "alice") (Some "wonderland") true.

(** A client with a user name but no password. *)
Definition half_settings : Settings.t :=
  Settings.mk "https://auth.example/oauth" (Some "") "GIGACHAT_API_PERS"
    (Some "") None (Some "alice") None true.

(** A client with both strategies configured and no token yet. *)
Definition both_settings : Settings.t :=
  Settings.mk "https://auth.example/oauth" (Some "c2VjcmV0") "GIGACHAT_API_PERS"
    None None (Some "alice") (Some "wonderland") true.

Definition started (settings : Settings.t) (w : remote) : state :=
  mk_state (__init__ settings) w.

Definition granted : Token.t := Token.mk "by-password" 1700000000000.

(** The static token is rejected; the retry is served. *)
Definition static_rejected : state :=
  started static_settings (mk_remote [unauthorized; completion] [] []).

(** The static token is rejected, and so is the retry without it. *)
Definition static_rejected_twice : state :=
  started static_settings (mk_remote [unauthorized; unauthorized; completion] [] []).

(** No token yet, both strategies configured, the server fails. *)
Definition first_call_fails : state :=
  started both_settings
    (mk_remote [reply 500 None "oops" []] [Ok fresh] [Ok granted]).

(** No token yet and the token endpoint refuses. *)
Definition first_refresh_refused : state :=
  started both_settings
    (mk_remote [completion] [Raise (AuthBackendError 503)] [Ok granted]).

Definition password_start : state :=
  started password_settings (mk_remote [completion] [Ok fresh] [Ok granted]).

Definition half_start : state :=
  started half_settings (mk_remote [completion] [Ok fresh] [Ok granted]).

(** A streaming request answered with a rejection that has a body. *)
Definition stream_rejected : state :=
  started static_settings
    (mk_remote
       [inr (mk_response "/chat/completions" 401
               {[ "content-type" := "text/event-stream" ]} "denied" [data_line] None)]
       [] []).

(** The held token is rejected at the opening of a stream, refreshed,
    and the second opening is served. *)
Definition stream_rejected_once : state :=
  holding true
    (mk_remote [unauthorized; inr (body_of "text/event-stream" [data_line])] [Ok fresh] []).

(** Modelled from the spec: [build_headers] and the thread models are
    not among the source files; the spec asks for an
    [Authorization: Bearer] header when a credential is present. Values
    are JSON texts, options are their own dictionary, a response is
    kept as its text. *)
#[export] Instance threads : Threads := {|
  JsonValue := string;
  json_str := q;
  ThreadRunOptions := gmap string string;
  ThreadRunOptions_dict := fun options => options;
  ThreadRunResponse := string;
  ThreadRunResponse_of_json := parse_object;
  build_headers := fun access_token =>
    if truthy access_token
    then {[ "Authorization" := "Bearer " +:+ default "" access_token ]} else ∅
|}.

Definition next_thread_reply (kwargs : thread_request) (w : remote)
    : (string + response) * remote :=
  match replies w with
  | r :: rs => (r, mk_remote rs (grants w) (password_grants w))
  | [] => (inl "ConnectError", w)
  end.

#[export] Instance thread_transport : ThreadTransport := {|
  client_request_thread := next_thread_reply;
  aclient_request_thread := next_thread_reply
|}.

End Cases.

(** ** Reading more of a run *)

(** The value under a key that is set only for a truthy argument. *)
Definition passed (value : option string) : option string :=
  if truthy value then value else None.

(** Whether the settings give [_update_token] something to exchange:
    credentials, or both a user name and a password. *)
Definition can_refresh (settings : Settings.t) : bool :=
  truthy (Settings.credentials settings)
  || (truthy (Settings.user settings) && truthy (Settings.password settings)).

Section MoreReading.
Context `{Transport}.

(** A token exchange, of either kind. *)
Definition is_post (e : event) : bool :=
  match e with
  | PostAuth _ _ _ | PostToken _ _ => true
  | _ => false
  end.

(** The client of [st] holding [value], in front of the remote [w]. *)
Definition holds (st : state) (value : option AccessToken.t) (w : W) : state :=
  mk_state (mk_client (_settings (self st)) value) w.

End MoreReading.

(** * Properties *)

(** ** [str.partition] *)

Lemma strip_prefix_Some p s rest :
  strip_prefix p s = Some rest -> s = p +:+ rest.
Proof.
  revert s; induction p as [|a p IH]; intros s; simpl.
  - by intros [= ->].
  - destruct s as [|b s]; [done|].
    destruct (Ascii.eqb_spec a b) as [->|]; [|done].
    intros Hrest; by rewrite (IH _ Hrest).
Qed.

Lemma find_sep_Some sep s before rest :
  find_sep sep s = Some (before, rest) -> s = before +:+ sep +:+ rest.
Proof.
  revert before; induction s as [|c s IH]; intros before; simpl.
  - destruct (strip_prefix sep "") eqn:Hp; [|congruence].
    intros [= <- <-]. by apply strip_prefix_Some in Hp.
  - destruct (strip_prefix sep (String c s)) eqn:Hp.
    + intros [= <- <-]. by apply strip_prefix_Some in Hp.
    + destruct (find_sep sep s) as [[b r]|]; [|congruence].
      intros [= <- <-]. by rewrite (IH b eq_refl) at 1.
Qed.

(** The three parts of a partition put together give the string back. *)
Lemma str_partition_join sep s :
  let '(before, mid, rest) := str_partition sep s in before +:+ mid +:+ rest = s.
Proof.
  unfold str_partition. destruct (find_sep sep s) as [[b r]|] eqn:Hf.
  - symmetry. by apply find_sep_Some.
  - clear Hf. induction s as [|c s IH]; [done|].
    by rewrite <- IH at 2.
Qed.

(** A line made of the data field name, the separator and a value. *)
Lemma str_partition_data value :
  str_partition ": " ("data: " +:+ value) = ("data", ": ", value).
Proof. reflexivity. Qed.

(** ** Runs and journals *)

Section Runs.
Context `{Transport}.

Lemma after_nil {A} (run : result A * state * list event) : after [] run = run.
Proof. by destruct run as [[r st] j]. Qed.

Lemma after_after {A} j0 j1 (run : result A * state * list event) :
  after j0 (after j1 run) = after (j0 ++ j1) run.
Proof. destruct run as [[r st] j]; simpl. by rewrite app_assoc. Qed.

Lemma bind_run {A B} (m : M A) (k : A -> M B) st :
  bind m k st =
    match m st with
    | (Ok a, st1, j1) => after j1 (k a st1)
    | (Raise e, st1, j1) => (Raise e, st1, j1)
    end.
Proof. unfold bind. by destruct (m st) as [[[a|e] st1] j1]. Qed.

Lemma count_app p (j1 j2 : list event) :
  count p (j1 ++ j2) = (count p j1 + count p j2)%nat.
Proof. induction j1 as [|e j1 IH]; simpl; [done | rewrite IH; lia]. Qed.

Lemma yielded_app (j1 j2 : list event) :
  yielded (j1 ++ j2) = yielded j1 ++ yielded j2.
Proof.
  induction j1 as [|e j1 IH]; simpl; [done|].
  destruct e; simpl; by rewrite ?IH.
Qed.

(** A journal of exchanges holds no chunk and none of the marks. *)
Lemma exchanges_quiet (j : list event) :
  forallb is_exchange j = true ->
  yielded j = [] /\ count is_call j = 0%nat /\ count is_refresh j = 0%nat
  /\ count is_reset j = 0%nat /\ count is_stream j = 0%nat.
Proof.
  induction j as [|e j IH]; simpl; [done|].
  destruct e; simpl; try done; intros Hj; by apply IH.
Qed.

(** A journal of chunks holds none of the marks. *)
Lemma chunks_quiet (j : list event) :
  forallb is_yield j = true ->
  count is_call j = 0%nat /\ count is_refresh j = 0%nat
  /\ count is_reset j = 0%nat /\ count is_stream j = 0%nat.
Proof.
  induction j as [|e j IH]; simpl; [done|].
  destruct e; simpl; try done; intros Hj; by apply IH.
Qed.

(** *** The line loop of [stream_chat.sync] *)

Lemma for_app {A} (xs ys : list A) (body : A -> M unit) st :
  for_ (xs ++ ys) body st =
    match for_ xs body st with
    | (Ok _, st1, j1) => after j1 (for_ ys body st1)
    | other => other
    end.
Proof.
  revert st; induction xs as [|x xs IH]; intros st; simpl.
  - by rewrite after_nil.
  - rewrite !bind_run. destruct (body x st) as [[[[]|e] st1] j1]; [|done].
    rewrite IH. destruct (for_ xs body st1) as [[[[]|e] st2] j2]; simpl; [|done].
    by rewrite after_after.
Qed.

Lemma yield_chunk_run line st :
  stream_chat.yield_chunk line st =
    match stream_chat._parse_chunk line with
    | Ok (Some chunk) => (Ok tt, st, [Yield chunk])
    | Ok None => (Ok tt, st, [])
    | Raise e => (Raise e, st, [])
    end.
Proof.
  unfold stream_chat.yield_chunk. rewrite bind_run. unfold lift.
  by destruct (stream_chat._parse_chunk line) as [[chunk|]|e].
Qed.

(** The only exception [_parse_chunk] raises is the model's. *)
Lemma _parse_chunk_raises line e :
  stream_chat._parse_chunk line = Raise e -> e = ValidationError.
Proof.
  unfold stream_chat._parse_chunk.
  destruct (str_partition ": " line) as [[name sep] value].
  destruct (String.eqb name "data"); [|done].
  destruct (String.eqb value "[DONE]"); [done|].
  destruct (parse_raw value); [done|]. by intros [= <-].
Qed.

(** The loop leaves the state alone, journals chunks only, and stops
    only on a chunk that does not parse. *)
Lemma for_yield_chunk lines st :
  let '(r, st', j) := for_ lines stream_chat.yield_chunk st in
  st' = st /\ forallb is_yield j = true /\ (r = Ok tt \/ r = Raise ValidationError).
Proof.
  induction lines as [|line lines IH]; simpl; [by auto|].
  rewrite bind_run, yield_chunk_run.
  destruct (stream_chat._parse_chunk line) as [[chunk|]|e] eqn:Hline;
    try (destruct (for_ lines stream_chat.yield_chunk st) as [[r st'] j]; simpl; by eauto).
  apply _parse_chunk_raises in Hline as ->. auto.
Qed.

Lemma iter_lines_run resp st :
  stream_chat.iter_lines resp stream_chat.yield_chunk st =
    match for_ (lines resp) stream_chat.yield_chunk st with
    | (Ok _, st1, j1) =>
        match broken resp with
        | Some kind => (Raise (HTTPError kind), st1, j1)
        | None => (Ok tt, st1, j1)
        end
    | other => other
    end.
Proof.
  unfold stream_chat.iter_lines. rewrite bind_run.
  destruct (for_ (lines resp) stream_chat.yield_chunk st) as [[[[]|e] st1] j1]; [|done].
  destruct (broken resp); simpl; by rewrite app_nil_r.
Qed.

(** *** Runs built alike *)

Lemma bind_ext {A B} (m1 m2 : M A) (k1 k2 : A -> M B) st :
  (forall s, m1 s = m2 s) -> (forall a s, k1 a s = k2 a s) ->
  bind m1 k1 st = bind m2 k2 st.
Proof.
  intros Hm Hk. unfold bind. rewrite Hm.
  destruct (m2 st) as [[[a|e] st1] j1]; [|done]. by rewrite Hk.
Qed.

Lemma try_except_ext {A} (b1 b2 h1 h2 : M A) st :
  (forall s, b1 s = b2 s) -> (forall s, h1 s = h2 s) ->
  try_except_AuthenticationError b1 h1 st = try_except_AuthenticationError b2 h2 st.
Proof.
  intros Hb Hh. unfold try_except_AuthenticationError. rewrite Hb.
  destruct (b2 st) as [[[a|e] st1] j1]; [done|]. destruct e; try done. by rewrite Hh.
Qed.

End Runs.

(** ** The event-stream decoder *)

Section Decoder.
Context `{Transport}.

Lemma sync_run chat access_token client_id session_id request_id st :
  stream_chat.sync chat access_token client_id session_id request_id st =
    let kwargs :=
      stream_chat._get_kwargs chat access_token client_id session_id request_id in
    match client_stream kwargs (world st) with
    | (inl kind, w) => (Raise (HTTPError kind), mk_state (self st) w, [Stream kwargs])
    | (inr resp, w) =>
        match stream_chat._check_response resp with
        | Raise e => (Raise e, mk_state (self st) w, [Stream kwargs])
        | Ok _ =>
            after [Stream kwargs]
              (stream_chat.iter_lines resp stream_chat.yield_chunk (mk_state (self st) w))
        end
    end.
Proof.
  unfold stream_chat.sync. cbv zeta. rewrite bind_run. unfold stream_chat.stream_.
  destruct (client_stream _ (world st)) as [[kind|resp] w]; [done|].
  rewrite bind_run. unfold lift.
  destruct (stream_chat._check_response resp) as [[]|e]; [|done].
  by rewrite after_nil.
Qed.

(** The only line that splits into the data field and the sentinel. *)
Lemma sentinel_line line sep :
  str_partition ": " line = ("data", sep, "[DONE]") -> line = "data: [DONE]".
Proof.
  intros Hp. pose proof (str_partition_join ": " line) as Hj. rewrite Hp in Hj.
  unfold str_partition in Hp. destruct (find_sep ": " line) as [[b r]|].
  - injection Hp as _ <- _. by rewrite <- Hj.
  - by injection Hp.
Qed.

(** C2, as the code has it. A data line whose value is the sentinel
    [[DONE]] yields no chunk and raises no error, and the decoder does
    not stop at it: a body with the sentinel line decodes exactly as the
    same body without that line, so the lines after the sentinel are
    decoded like any other and the sequence ends where the body ends. *)
Theorem C2_sentinel_line_is_skipped (resp : response) (pre post : list string) st :
  stream_chat._parse_chunk "data: [DONE]" = Ok None /\
  stream_chat.iter_lines (with_lines resp (pre ++ "data: [DONE]" :: post))
    stream_chat.yield_chunk st
  = stream_chat.iter_lines (with_lines resp (pre ++ post)) stream_chat.yield_chunk st.
Proof.
  split; [done|].
  rewrite !iter_lines_run. simpl. rewrite !for_app.
  destruct (for_ pre stream_chat.yield_chunk st) as [[[[]|e] st1] j1]; [|done].
  simpl for_. rewrite bind_run, yield_chunk_run.
  change (stream_chat._parse_chunk "data: [DONE]") with (@Ok (option ChatCompletionChunk) None).
  cbv iota beta. by rewrite after_nil.
Qed.

(** C8. A line whose field name is the data field and whose value is
    neither the sentinel nor a parseable chunk ends the sequence with
    the model's validation error: the journal is that of the lines
    before it, so the line is not skipped and no later line is decoded. *)
Theorem C8_malformed_data_line_is_a_hard_error
    (resp : response) (pre post : list string) (line sep value : string) st :
  lines resp = pre ++ line :: post ->
  str_partition ": " line = ("data", sep, value) ->
  value <> "[DONE]" ->
  parse_raw value = None ->
  let '(_, _, j0) := for_ pre stream_chat.yield_chunk st in
  stream_chat.iter_lines resp stream_chat.yield_chunk st = (Raise ValidationError, st, j0).
Proof.
  intros Hlines Hline Hvalue Hraw.
  pose proof (for_yield_chunk pre st) as Hpre.
  rewrite iter_lines_run, Hlines, for_app.
  destruct (for_ pre stream_chat.yield_chunk st) as [[r0 st0] j0].
  destruct Hpre as (-> & _ & [-> | ->]); [|done].
  simpl for_. rewrite bind_run, yield_chunk_run.
  unfold stream_chat._parse_chunk. rewrite Hline. simpl String.eqb.
  destruct (String.eqb_spec value "[DONE]") as [|_]; [done|].
  rewrite Hraw. simpl. by rewrite app_nil_r.
Qed.

(** C6, as the code has it. On a response with the OK status, when the
    text of the Content-Type header before its first [;] (the empty
    text when the header is absent) is not exactly [text/event-stream],
    the call raises [TransportError] and has yielded no chunk: the
    journal holds the opening of the stream and nothing else. *)
Theorem C6_media_type_mismatch_raises
    chat access_token client_id session_id request_id st
    (resp : response) w (content_type sep params : string) :
  client_stream
    (stream_chat._get_kwargs chat access_token client_id session_id request_id)
    (world st) = (inr resp, w) ->
  status_code resp = OK ->
  str_partition ";" (default "" (r_headers resp !! "content-type"))
    = (content_type, sep, params) ->
  content_type <> stream_chat.EVENT_STREAM ->
  stream_chat.sync chat access_token client_id session_id request_id st
  = (Raise (TransportError content_type), mk_state (self st) w,
     [Stream (stream_chat._get_kwargs chat access_token client_id session_id request_id)]).
Proof.
  intros Hstream Hstatus Hpart Hne.
  rewrite sync_run. cbv zeta. rewrite Hstream.
  unfold stream_chat._check_response, stream_chat._check_content_type.
  rewrite Hstatus, Hpart. simpl.
  by destruct (String.eqb_spec content_type stream_chat.EVENT_STREAM).
Qed.

End Decoder.

(** ** The dispatcher *)

(** Unfolds the plumbing of a run, splits on every outcome met, and
    closes what is left by the equations collected on the way. *)
Ltac run_cases :=
  unfold bind, try_except_AuthenticationError, client.gets, after, ret, raise, lift, emit,
    client.logger_warning, client.logger_info, client._reset_token,
    client.set_access_token, discarded;
  simpl;
  repeat case_match; simplify_eq/=; rewrite ?app_nil_r, <- ?app_assoc;
  try done; try congruence.

Section Dispatcher.
Context `{Transport}.

Lemma gets_run {A} (f : _BaseClient -> A) st : client.gets f st = (Ok (f (self st)), st, []).
Proof. done. Qed.

(** [_reset_token] journals its mark and leaves a client without a
    token. *)
Lemma _reset_token_run st :
  client._reset_token st = (Ok tt, discarded st, [Reset]).
Proof. done. Qed.

(** [_update_token] journals its entry and then exchanges only, and
    never touches the settings. *)
Lemma _update_token_journal st :
  let '(r, st', j) := client._update_token st in
  exists rest, j = Refresh :: rest /\ forallb is_exchange rest = true
               /\ _settings (self st') = _settings (self st).
Proof.
  unfold client._update_token. rewrite bind_run. unfold emit at 1. cbv iota beta.
  rewrite bind_run, gets_run. cbv iota beta.
  destruct (truthy (Settings.credentials (_settings (self st)))).
  - rewrite bind_run. unfold client.post_auth_sync_.
    destruct (post_auth_sync _ _ _ (world st)) as [[tok|e] w]; simpl; eauto.
  - destruct (truthy (Settings.user (_settings (self st)))
              && truthy (Settings.password (_settings (self st)))).
    + rewrite bind_run. unfold client.post_token_sync_.
      destruct (post_token_sync _ _ (world st)) as [[tok|e] w]; simpl; eauto.
    + simpl. eauto.
Qed.

Lemma _decorator_retry_once {T} (call : M T) st :
  client._decorator call st = retry_once (invoke call) st.
Proof. unfold client._decorator, retry_once. run_cases. Qed.

Lemma stream_retry_once payload st :
  client.stream payload st =
    retry_once
      (stream_attempt (client._parse_chat payload (Settings.model (_settings (self st))))) st.
Proof.
  unfold client.stream, retry_once, stream_attempt. run_cases.
  by match goal with u : unit |- _ => destruct u end.
Qed.

Lemma chat_decorator payload st :
  client.chat payload st =
    client._decorator
      (chat_call (client._parse_chat payload (Settings.model (_settings (self st))))) st.
Proof.
  unfold client.chat. rewrite bind_run, gets_run. cbv iota beta. by rewrite after_nil.
Qed.

Lemma chat_call_run chat st :
  chat_call chat st =
    let kwargs := post_chat._get_kwargs chat (client.token (self st)) None None None in
    match client_request kwargs (world st) with
    | (inr resp, w) => (post_chat._build_response resp, mk_state (self st) w, [Request kwargs])
    | (inl kind, w) => (Raise (HTTPError kind), mk_state (self st) w, [Request kwargs])
    end.
Proof.
  unfold chat_call, post_chat.sync, post_chat.request_. cbv zeta.
  rewrite bind_run, gets_run. cbv iota beta. rewrite after_nil, bind_run.
  destruct (client_request _ (world st)) as [[kind|resp] w]; [done|].
  unfold lift. simpl. by rewrite ?app_nil_r.
Qed.

(** C1, as the code has it. With authentication on and a token held,
    the dispatcher invokes the callable once. If that returns, the
    value is returned and nothing else is done. If it raises
    [AuthenticationError], the dispatcher warns, resets the token and
    enters [_update_token] exactly once; if the refresh returns, the
    callable is invoked exactly once more and whatever that gives, a
    second [AuthenticationError] included, is the outcome; if the
    refresh raises, its exception is the outcome and the callable is
    not invoked again. Any other exception of the first invocation is
    the outcome. In all, at most two invocations and one refresh. *)
Theorem C1_one_refresh_then_one_more_attempt {T} (call : M T) st :
  client._use_auth (self st) = true ->
  client._check_validity_token (self st) = true ->
  let '(r, st', j) := client._decorator call st in
  (count is_call j <= 2)%nat /\ (count is_refresh j <= 1)%nat /\
  match call st with
  | (Ok v, st1, j1) =>
      (r, st', j) = (Ok v, st1, [Call j1])
  | (Raise (AuthenticationError _), st1, j1) =>
      match client._update_token (discarded st1) with
      | (Ok _, st2, j2) =>
          let '(r3, st3, j3) := call st2 in
          (r, st', j) =
            (r3, st3,
             [Call j1; Log "WARNING" "AUTHENTICATION ERROR"; Reset] ++ j2 ++ [Call j3])
          /\ count is_call j = 2%nat /\ count is_refresh j = 1%nat
      | (Raise e, st2, j2) =>
          (r, st', j) =
            (Raise e, st2, [Call j1; Log "WARNING" "AUTHENTICATION ERROR"; Reset] ++ j2)
          /\ count is_call j = 1%nat /\ count is_refresh j = 1%nat
      end
  | (Raise e, st1, j1) =>
      (r, st', j) = (Raise e, st1, [Call j1])
  end.
Proof.
  intros Hauth Hvalid. rewrite _decorator_retry_once. unfold retry_once.
  rewrite Hauth, Hvalid. unfold invoke at 1.
  destruct (call st) as [[[v|e] st1] j1]; [simpl; intuition lia|].
  destruct e; try (simpl; intuition lia).
  rewrite bind_run.
  pose proof (_update_token_journal (discarded st1)) as Hj.
  destruct (client._update_token (discarded st1)) as [[[[]|e] st2] j2];
    destruct Hj as (rest & -> & Hrest & _);
    apply exchanges_quiet in Hrest as (_ & Hc & Hr & _).
  - unfold invoke. destruct (call st2) as [[r3 st3] j3]. simpl.
    rewrite !count_app, Hc, Hr. simpl. intuition lia.
  - simpl. rewrite Hc, Hr. intuition lia.
Qed.


(** C5. An exception other than [AuthenticationError] raised by an
    invocation of the callable is the outcome of the call as it is, and
    that invocation is the last thing the dispatcher does: the final
    state is the one the invocation left, so no reset and no refresh
    follow and the held token is as it was. When the first invocation
    raises it, the journal is that single invocation. For [chat], a
    status other than OK and UNAUTHORIZED gives [ResponseError] after
    one request, with the client object unchanged. *)
Theorem C5_other_errors_propagate {T} (call : M T) st e :
  is_authentication_error e = false ->
  (forall st1 j1,
     client._use_auth (self st) = false \/ client._check_validity_token (self st) = true ->
     call st = (Raise e, st1, j1) ->
     client._decorator call st = (Raise e, st1, [Call j1]))
  /\ (forall st_a st1 j1,
        invoked_at call st st_a ->
        call st_a = (Raise e, st1, j1) ->
        exists j0, client._decorator call st = (Raise e, st1, j0 ++ [Call j1]))
  /\ (forall payload resp w,
        let chat := client._parse_chat payload (Settings.model (_settings (self st))) in
        let kwargs := post_chat._get_kwargs chat (client.token (self st)) None None None in
        client._use_auth (self st) = false \/ client._check_validity_token (self st) = true ->
        client_request kwargs (world st) = (inr resp, w) ->
        status_code resp <> OK ->
        status_code resp <> UNAUTHORIZED ->
        client.chat payload st =
          (Raise (ResponseError
                    (mk_args (r_url resp) (status_code resp) (content resp) (r_headers resp))),
           mk_state (self st) w, [Call [Request kwargs]])).
Proof.
  intros He.
  assert (Hfirst : forall (call : M T) st1 j1,
     client._use_auth (self st) = false \/ client._check_validity_token (self st) = true ->
     call st = (Raise e, st1, j1) ->
     client._decorator call st = (Raise e, st1, [Call j1])).
  { intros call' st1 j1 Hst Hcall. rewrite _decorator_retry_once. unfold retry_once, invoke.
    rewrite Hcall. destruct e; try done;
      destruct Hst as [-> | ->]; try done; by destruct (client._use_auth (self st)). }
  split; [by apply Hfirst|]. split.
  - intros st_a st1 j1 Hat Hcall. destruct Hat as [Hst | st2 j2 Hauth Hvalid Hup | a st0 j0 st2 j2 Hauth Hvalid Hcall0 Hup].
    + exists []. by apply Hfirst.
    + exists j2. rewrite _decorator_retry_once. unfold retry_once.
      rewrite Hauth, Hvalid, bind_run, Hup. unfold invoke. by rewrite Hcall.
    + exists ([Call j0; Log "WARNING" "AUTHENTICATION ERROR"; Reset] ++ j2).
      rewrite _decorator_retry_once. unfold retry_once.
      rewrite Hauth, Hvalid. unfold invoke at 1. rewrite Hcall0, bind_run, Hup.
      unfold invoke. by rewrite Hcall.
  - intros payload resp w chat kwargs Hst Hreq Hok Hun.
    rewrite chat_decorator. fold chat.
    assert (Hcall : chat_call chat st =
      (Raise (ResponseError
                (mk_args (r_url resp) (status_code resp) (content resp) (r_headers resp))),
       mk_state (self st) w, [Request kwargs])).
    { rewrite chat_call_run. fold kwargs. cbv zeta. rewrite Hreq.
      unfold post_chat._build_response.
      destruct (Z.eqb_spec (status_code resp) OK); [done|].
      by destruct (Z.eqb_spec (status_code resp) UNAUTHORIZED). }
    rewrite _decorator_retry_once. unfold retry_once, invoke. rewrite Hcall.
    destruct Hst as [-> | ->]; [done|]. by destruct (client._use_auth (self st)).
Qed.


(** A refresh that returns has stored a token when the settings give
    it something to exchange, and has changed nothing otherwise. *)
Lemma _update_token_returns st st2 j2 :
  client._update_token st = (Ok tt, st2, j2) ->
  _settings (self st2) = _settings (self st)
  /\ if can_refresh (_settings (self st))
     then is_Some (_access_token (self st2)) else st2 = st.
Proof.
  unfold client._update_token, can_refresh. rewrite bind_run. unfold emit at 1.
  cbv iota beta. rewrite bind_run, gets_run. cbv iota beta.
  destruct (truthy (Settings.credentials (_settings (self st)))); simpl orb.
  - rewrite bind_run. unfold client.post_auth_sync_.
    destruct (post_auth_sync _ _ _ (world st)) as [[tok|e] w]; simpl; [|done].
    intros [= <- _]. simpl. eauto.
  - destruct (truthy (Settings.user (_settings (self st)))
              && truthy (Settings.password (_settings (self st)))).
    + rewrite bind_run. unfold client.post_token_sync_.
      destruct (post_token_sync _ _ (world st)) as [[tok|e] w]; simpl; [|done].
      intros [= <- _]. simpl. eauto.
    + simpl. by intros [= <- _].
Qed.

(** How a run of the dispatcher starts when authentication is on: with
    the invocation when a token is held, with the refresh otherwise. *)
Lemma _decorator_starts {T} (call : M T) st :
  client._use_auth (self st) = true ->
  let '(_, _, j) := client._decorator call st in
  if client._check_validity_token (self st)
  then exists rest, j = Call (snd (call st)) :: rest
  else exists rest, j = Refresh :: rest.
Proof.
  intros Hauth. rewrite _decorator_retry_once. unfold retry_once. rewrite Hauth.
  destruct (client._check_validity_token (self st)).
  - unfold invoke at 1. destruct (call st) as [[[v|e] st1] j1]; simpl; [by eauto|].
    destruct e; simpl; try by eauto.
    destruct ((client._update_token ;; invoke call) (discarded st1)) as [[r3 st3] j3].
    simpl. by eauto.
  - rewrite bind_run. pose proof (_update_token_journal st) as Hj.
    destruct (client._update_token st) as [[[[]|e] s2] j2];
      destruct Hj as (rest & -> & _); [|by eauto].
    destruct (invoke call s2) as [[r3 s3] j3]. simpl. by eauto.
Qed.

(** C3, as the code has it. When the first invocation, made with a
    held token, raises [AuthenticationError], the token is discarded:
    the dispatcher warns, resets, and the refresh starts from a client
    that holds no token. An [AuthenticationError] raised by the
    invocation that follows the refresh is the outcome as it is: the
    final state is the one that invocation left, and the only reset of
    the run is the one before the refresh. So, for a callable that
    leaves the client object alone, the client holds afterwards what
    the refresh left: when the settings give the refresh something to
    exchange, the token it stored, and the next call starts with an
    invocation; when they do not, no token, and the next call starts
    with a refresh. *)
Theorem C3_token_discarded_on_first_failure_only {T} (call : M T) st a st1 j1 :
  client._use_auth (self st) = true ->
  client._check_validity_token (self st) = true ->
  call st = (Raise (AuthenticationError a), st1, j1) ->
  _access_token (self (discarded st1)) = None
  /\ client._decorator call st =
       after [Call j1; Log "WARNING" "AUTHENTICATION ERROR"; Reset]
         ((client._update_token ;; invoke call) (discarded st1))
  /\ (forall st2 j2 a' st3 j3,
        client._update_token (discarded st1) = (Ok tt, st2, j2) ->
        call st2 = (Raise (AuthenticationError a'), st3, j3) ->
        let '(r, st', j) := client._decorator call st in
        r = Raise (AuthenticationError a') /\ st' = st3 /\ count is_reset j = 1%nat
        /\ (self st1 = self st -> self st3 = self st2 ->
            _access_token (self st') = _access_token (self st2)
            /\ if can_refresh (_settings (self st))
               then
                 is_Some (_access_token (self st'))
                 /\ (forall T' (next : M T'),
                       let '(_, _, jn) := client._decorator next st' in
                       exists rest, jn = Call (snd (next st')) :: rest)
               else
                 _access_token (self st') = None
                 /\ (forall T' (next : M T'),
                       let '(_, _, jn) := client._decorator next st' in
                       exists rest, jn = Refresh :: rest))).
Proof.
  intros Hauth Hvalid Hcall.
  assert (Hrun : client._decorator call st =
       after [Call j1; Log "WARNING" "AUTHENTICATION ERROR"; Reset]
         ((client._update_token ;; invoke call) (discarded st1))).
  { rewrite _decorator_retry_once. unfold retry_once.
    rewrite Hauth, Hvalid. unfold invoke at 1. by rewrite Hcall. }
  split; [done|]. split; [done|].
  intros st2 j2 a' st3 j3 Hup Hcall2. rewrite Hrun, bind_run, Hup.
  unfold invoke. rewrite Hcall2. simpl.
  pose proof (_update_token_journal (discarded st1)) as Hj. rewrite Hup in Hj.
  destruct Hj as (rest & -> & Hrest & _).
  apply exchanges_quiet in Hrest as (_ & _ & _ & Hreset & _).
  split; [done|]. split; [done|].
  split; [simpl; by rewrite count_app, Hreset|].
  intros Hself1 Hself3. rewrite Hself3. split; [done|].
  apply _update_token_returns in Hup as (Hsettings & Hstored).
  simpl in Hsettings, Hstored. rewrite Hself1 in Hsettings, Hstored.
  assert (Hon : client._use_auth (self st3) = true).
  { unfold client._use_auth in *. by rewrite Hself3, Hsettings. }
  destruct (can_refresh (_settings (self st))).
  - destruct Hstored as [tok Htok]. split; [by rewrite Htok|]. intros T' next.
    pose proof (_decorator_starts next st3 Hon) as Hnext.
    destruct (client._decorator next st3) as [[rn sn] jn].
    unfold client._check_validity_token in Hnext. by rewrite Hself3, Htok in Hnext.
  - subst st2. split; [done|]. intros T' next.
    pose proof (_decorator_starts next st3 Hon) as Hnext.
    destruct (client._decorator next st3) as [[rn sn] jn].
    unfold client._check_validity_token in Hnext. by rewrite Hself3 in Hnext.
Qed.

(** C7. With authentication off, [self.token] is absent whatever
    token the client holds; the dispatcher invokes the callable exactly
    once and does nothing else, so [_update_token] is never entered;
    the one request of [chat] and the one stream opened by [stream]
    carry no Authorization header, and nothing but chunks follows the
    opening of the stream. *)
Theorem C7_no_credential_when_authentication_is_off st :
  client._use_auth (self st) = false ->
  client.token (self st) = None
  /\ (forall T (call : M T), client._decorator call st = invoke call st)
  /\ (forall payload,
        let '(_, _, j) := client.chat payload st in
        exists kwargs,
          j = [Call [Request kwargs]] /\ headers kwargs !! "Authorization" = None)
  /\ (forall payload,
        let '(_, _, j) := client.stream payload st in
        exists kwargs chunks,
          j = Stream kwargs :: chunks
          /\ headers kwargs !! "Authorization" = None
          /\ forallb is_yield chunks = true).
Proof.
  intros Hauth.
  assert (Htoken : client.token (self st) = None).
  { unfold client.token. unfold client._use_auth in Hauth. by rewrite Hauth. }
  assert (Hdec : forall T (call : M T), client._decorator call st = invoke call st).
  { intros T call. rewrite _decorator_retry_once. unfold retry_once. by rewrite Hauth. }
  split; [done|]. split; [done|]. split.
  - intros payload. rewrite chat_decorator, Hdec. unfold invoke.
    rewrite chat_call_run, Htoken. cbv zeta.
    destruct (client_request _ (world st)) as [[kind|resp] w]; eexists; (split; [done|]); done.
  - intros payload. rewrite stream_retry_once. unfold retry_once. rewrite Hauth.
    unfold stream_attempt. rewrite bind_run, gets_run. cbv iota beta.
    rewrite after_nil, Htoken, sync_run. cbv zeta.
    destruct (client_stream _ (world st)) as [[kind|resp] w].
    + eexists _, []. done.
    + destruct (stream_chat._check_response resp) as [[]|e].
      * rewrite iter_lines_run.
        pose proof (for_yield_chunk (lines resp) (mk_state (self st) w)) as Hl.
        destruct (for_ (lines resp) stream_chat.yield_chunk _) as [[[[]|e] st1] j1];
          destruct Hl as (_ & Hy & _); [destruct (broken resp)|]; simpl; eauto.
      * eexists _, []. done.
Qed.

End Dispatcher.

(** ** The streaming call *)

Section Streaming.
Context `{Transport}.

(** One attempt of [stream]: the opening of the stream, then chunks
    only; and when it raises [AuthenticationError] no chunk at all,
    since only [_check_response] raises it. *)
Lemma stream_attempt_shape chat st :
  let '(r, st', j) := stream_attempt chat st in
  exists kwargs chunks,
    j = Stream kwargs :: chunks /\ forallb is_yield chunks = true
    /\ (forall a, r = Raise (AuthenticationError a) -> chunks = []).
Proof.
  unfold stream_attempt. rewrite bind_run, gets_run. cbv iota beta.
  rewrite after_nil, sync_run. cbv zeta.
  destruct (client_stream _ (world st)) as [[kind|resp] w].
  - by eexists _, [].
  - destruct (stream_chat._check_response resp) as [[]|e]; [|by eexists _, []].
    rewrite iter_lines_run.
    pose proof (for_yield_chunk (lines resp) (mk_state (self st) w)) as Hl.
    destruct (for_ (lines resp) stream_chat.yield_chunk _) as [[r1 st1] j1].
    destruct Hl as (_ & Hy & [-> | ->]); [destruct (broken resp)|];
      simpl; eexists _, j1; done.
Qed.

(** In a journal that is quiet up to the opening of a stream and holds
    only chunks after it, only chunks follow a chunk. *)
Lemma only_chunks_after_a_chunk (quiet chunks before rest : list event) chunk :
  yielded quiet = [] ->
  forallb is_yield chunks = true ->
  quiet ++ chunks = before ++ Yield chunk :: rest ->
  forallb is_yield rest = true.
Proof.
  revert before; induction quiet as [|e quiet IH]; intros before Hq Hc Heq.
  - simpl in Heq. subst chunks. rewrite forallb_app in Hc. simpl in Hc.
    by apply andb_prop in Hc as [_ Hc].
  - destruct before as [|b before]; simpl in Heq.
    + by injection Heq as -> _.
    + injection Heq as -> Heq. apply (IH before); [|done..].
      by destruct b.
Qed.

(** The shape of every run of [stream]: a part without chunks, holding
    at most one opening, one reset and one refresh; then either nothing,
    or one attempt whose outcome is the outcome of the run. *)
Lemma stream_shape payload st :
  let chat := client._parse_chat payload (Settings.model (_settings (self st))) in
  let '(r, st', j) := client.stream payload st in
  exists before,
    yielded before = []
    /\ (count is_stream before <= 1)%nat /\ (count is_refresh before <= 1)%nat
    /\ (count is_reset before <= 1)%nat
    /\ (j = before \/
        exists st_a kwargs chunks,
          j = before ++ Stream kwargs :: chunks /\ forallb is_yield chunks = true
          /\ stream_attempt chat st_a = (r, st', Stream kwargs :: chunks)).
Proof.
  intros chat. rewrite stream_retry_once. fold chat. unfold retry_once.
  assert (Htail : forall s,
    let '(r, st', j) := (client._update_token ;; stream_attempt chat) s in
    exists exch, forallb is_exchange exch = true /\
      (j = Refresh :: exch \/
       exists st_a kwargs chunks,
         j = (Refresh :: exch) ++ Stream kwargs :: chunks /\ forallb is_yield chunks = true
         /\ stream_attempt chat st_a = (r, st', Stream kwargs :: chunks))).
  { intros s. rewrite bind_run.
    pose proof (_update_token_journal s) as Hj.
    destruct (client._update_token s) as [[[[]|e] s2] j2];
      destruct Hj as (exch & -> & Hexch & _); [|exists exch; by auto].
    pose proof (stream_attempt_shape chat s2) as Ha.
    destruct (stream_attempt chat s2) as [[r3 s3] j3] eqn:Hrun.
    destruct Ha as (kwargs & chunks & -> & Hy & _).
    exists exch. split; [done|]. right. by exists s2, kwargs, chunks. }
  assert (Hone : forall s,
    let '(r, st', j) := stream_attempt chat s in
    exists before,
      yielded before = []
      /\ (count is_stream before <= 1)%nat /\ (count is_refresh before <= 1)%nat
      /\ (count is_reset before <= 1)%nat
      /\ (j = before \/
          exists st_a kwargs chunks,
            j = before ++ Stream kwargs :: chunks /\ forallb is_yield chunks = true
            /\ stream_attempt chat st_a = (r, st', Stream kwargs :: chunks))).
  { intros s. pose proof (stream_attempt_shape chat s) as Ha.
    destruct (stream_attempt chat s) as [[r1 s1] j1] eqn:Hrun.
    destruct Ha as (kwargs & chunks & -> & Hy & _).
    exists []. simpl. repeat split; try lia. right. by exists s, kwargs, chunks. }
  assert (Hrefresh : forall s j0,
    yielded j0 = [] -> (count is_stream j0 <= 1)%nat -> count is_refresh j0 = 0%nat ->
    (count is_reset j0 <= 1)%nat ->
    let '(r, st', j) := after j0 ((client._update_token ;; stream_attempt chat) s) in
    exists before,
      yielded before = []
      /\ (count is_stream before <= 1)%nat /\ (count is_refresh before <= 1)%nat
      /\ (count is_reset before <= 1)%nat
      /\ (j = before \/
          exists st_a kwargs chunks,
            j = before ++ Stream kwargs :: chunks /\ forallb is_yield chunks = true
            /\ stream_attempt chat st_a = (r, st', Stream kwargs :: chunks))).
  { intros s j0 Hy0 Hs0 Hr0 Hz0. specialize (Htail s).
    destruct ((client._update_token ;; stream_attempt chat) s) as [[r3 st3] j3].
    destruct Htail as (exch & Hexch & Hj3).
    apply exchanges_quiet in Hexch as (Hy & _ & Hr & Hz & Hs).
    exists (j0 ++ Refresh :: exch). simpl.
    rewrite yielded_app, !count_app. simpl. rewrite Hy0, Hy, Hr, Hz, Hs, Hr0.
    repeat split; try lia.
    destruct Hj3 as [-> | (st_a & kw & ch & -> & Hch & Hrun3)]; [by left|].
    right. exists st_a, kw, ch. by rewrite <- app_assoc. }
  destruct (client._use_auth (self st)); [|apply Hone].
  destruct (client._check_validity_token (self st)).
  - pose proof (stream_attempt_shape chat st) as Ha. specialize (Hone st).
    destruct (stream_attempt chat st) as [[[v|e] st1] j1] eqn:Hrun; [done|].
    destruct e; try done.
    destruct Ha as (kwargs & chunks & -> & _ & Hauth). rewrite (Hauth _ eq_refl).
    by apply Hrefresh.
  - specialize (Hrefresh st []). rewrite after_nil in Hrefresh. apply Hrefresh; simpl; lia || done.
Qed.

(** C4. In every run of [stream] the stream is opened at most twice
    and the token is reset and refreshed at most once; once a chunk has
    been yielded nothing but chunks follows, so the reset, the refresh
    and the second opening all come before the first chunk; and when
    any chunk was yielded, the chunks and the outcome of the run are
    those of one attempt, so an exception raised after a chunk ends the
    sequence as it is. *)
Theorem C4_retry_only_before_the_first_chunk payload st :
  let chat := client._parse_chat payload (Settings.model (_settings (self st))) in
  let '(r, st', j) := client.stream payload st in
  (count is_stream j <= 2)%nat /\ (count is_refresh j <= 1)%nat
  /\ (count is_reset j <= 1)%nat
  /\ (forall before chunk rest,
        j = before ++ Yield chunk :: rest -> forallb is_yield rest = true)
  /\ (yielded j <> [] ->
      exists before st_a attempt,
        j = before ++ attempt /\ yielded before = []
        /\ stream_attempt chat st_a = (r, st', attempt)).
Proof.
  intros chat. pose proof (stream_shape payload st) as Hshape. fold chat in Hshape.
  destruct (client.stream payload st) as [[r st'] j].
  destruct Hshape as (before & Hy & Hs & Hr & Hz & Hj).
  destruct Hj as [-> | (st_a & kwargs & chunks & -> & Hch & Hrun)].
  - repeat split; try lia; [|done].
    intros b c rest Heq. rewrite Heq, yielded_app in Hy. simpl in Hy.
    by destruct (yielded b).
  - apply chunks_quiet in Hch as Hq. destruct Hq as (_ & Hr' & Hz' & Hs').
    rewrite !count_app. simpl. rewrite Hr', Hz', Hs'.
    repeat split; try lia.
    + intros b c rest Heq.
      apply (only_chunks_after_a_chunk (before ++ [Stream kwargs]) chunks b rest c);
        [by rewrite yielded_app, Hy | done | by rewrite <- app_assoc].
    + intros _. by exists before, st_a, (Stream kwargs :: chunks).
Qed.

End Streaming.

(** ** Request headers *)

Section Headers.
Context `{Models}.

(** C10. The request built by either endpoint carries an
    Authorization header exactly when the credential is a non-empty
    string, and then its value is [Bearer] followed by the credential;
    an empty credential, like an absent one, gives a request without
    the header. *)
Theorem C10_authorization_iff_truthy_credential
    (chat : Chat.t Body) (access_token client_id session_id request_id : option string) :
  let post :=
    headers (post_chat._get_kwargs chat access_token client_id session_id request_id)
      !! "Authorization" in
  let streaming :=
    headers (stream_chat._get_kwargs chat access_token client_id session_id request_id)
      !! "Authorization" in
  match access_token with
  | Some (String c s) =>
      post = Some ("Bearer " +:+ String c s) /\ streaming = Some ("Bearer " +:+ String c s)
  | Some EmptyString | None => post = None /\ streaming = None
  end.
Proof.
  unfold post_chat._get_kwargs, stream_chat._get_kwargs. simpl.
  destruct access_token as [[|c s]|]; simpl;
    destruct (truthy client_id), (truthy session_id), (truthy request_id);
    split; by simplify_map_eq.
Qed.
End Headers.

(** ** The two scheduling variants *)

(** Two runs built alike are equal when their parts are. *)
Ltac alike :=
  repeat first
    [ done
    | apply bind_ext; intros
    | apply try_except_ext; intros
    | match goal with
      | |- (if ?b then _ else _) _ = (if ?b then _ else _) _ => destruct b
      | |- (match ?r with Returned _ => _ | Fell => _ end) _ = _ => destruct r
      end ].

Section Variants.
Context `{Transport}.

Lemma retry_once_ext {T} (a1 a2 : M T) st :
  (forall s, a1 s = a2 s) -> retry_once a1 st = retry_once a2 st.
Proof.
  intros Hext. unfold retry_once. rewrite !bind_run, !Hext.
  destruct (client._use_auth (self st)); [|done].
  destruct (client._check_validity_token (self st)).
  - destruct (a2 st) as [[[v|e] st1] j1]; [done|]. destruct e; try done.
    rewrite !bind_run. destruct (client._update_token (discarded st1)) as [[[[]|e] s2] j2]; [|done].
    by rewrite Hext.
  - destruct (client._update_token st) as [[[[]|e] s2] j2]; [|done]. by rewrite Hext.
Qed.

(** C9. When the asynchronous transport answers as the synchronous one
    does, the asynchronous client runs as the synchronous one: for
    callables that behave alike [_adecorator] and [_decorator] give the
    same outcome, the same final state and the same journal, and so do
    [achat] and [chat], and [astream] and [stream]. *)
Theorem C9_sync_and_async_dispatch_agree :
  (forall kwargs w, aclient_request kwargs w = client_request kwargs w) ->
  (forall kwargs w, aclient_stream kwargs w = client_stream kwargs w) ->
  (forall url credentials scope w,
     post_auth_asyncio url credentials scope w = post_auth_sync url credentials scope w) ->
  (forall user password w,
     post_token_asyncio user password w = post_token_sync user password w) ->
  (forall T (acall call : M T),
     (forall s, acall s = call s) ->
     forall st, client._adecorator acall st = client._decorator call st)
  /\ (forall payload st, client.achat payload st = client.chat payload st)
  /\ (forall payload st, client.astream payload st = client.stream payload st).
Proof.
  intros Hrequest Hstream Hauth Htoken.
  assert (Hupdate : forall st, client._aupdate_token st = client._update_token st).
  { intros st. unfold client._aupdate_token, client._update_token, client.await. alike.
    - unfold client.post_auth_asyncio_, client.post_auth_sync_. by rewrite Hauth.
    - unfold client.post_token_asyncio_, client.post_token_sync_. by rewrite Htoken. }
  assert (Hdec : forall T (acall call : M T),
            (forall s, acall s = call s) ->
            forall st, client._adecorator acall st = client._decorator call st).
  { intros T acall call Hext st.
    unfold client._adecorator, client._decorator, client.await. alike.
    all: unfold invoke; by rewrite Hext. }
  split; [done|]. split.
  - intros payload st. unfold client.achat, client.chat, client.await.
    apply bind_ext; [done|]. intros model s. cbv zeta. apply Hdec. intros s0.
    apply bind_ext; [done|]. intros tok s1.
    unfold post_chat.asyncio, post_chat.sync. cbv zeta.
    apply bind_ext; [|done]. intros s2.
    unfold post_chat.arequest_, post_chat.request_. by rewrite Hrequest.
  - assert (Hs : forall chat tok s,
      stream_chat.asyncio chat tok None None None s = stream_chat.sync chat tok None None None s).
    { intros chat tok s0. unfold stream_chat.asyncio, stream_chat.sync. alike.
      unfold stream_chat.astream_, stream_chat.stream_. by rewrite Hstream. }
    intros payload st. unfold client.astream, client.stream, client.await. alike.
Qed.
End Variants.

(** ** Runs against the scripted remote *)

Section ScriptedRuns.
Import Scripted.

(** The decoder on single lines: a comment, a line without the
    separator, the sentinel, a bare field name (whose value is empty
    and does not parse). *)
Example _parse_chunk_lines :
  stream_chat._parse_chunk ": keep-alive" = Ok None
  /\ stream_chat._parse_chunk "data:[DONE]" = Ok None
  /\ stream_chat._parse_chunk "data: [DONE]" = Ok None
  /\ stream_chat._parse_chunk "data" = Raise ValidationError
  /\ stream_chat._parse_chunk data_line = Ok (Some chunk_json).
Proof. by vm_compute. Qed.

(** A body that ends with the sentinel: one chunk, then a clean end. *)
Example sentinel_last :
  let '(r, _, j) :=
    stream_chat.iter_lines
      (body_of "text/event-stream" ["event: x"; data_line; "data: [DONE]"])
      stream_chat.yield_chunk rejected_once in
  r = Ok tt /\ j = [Yield chunk_json].
Proof. by vm_compute. Qed.

(** C2 as stated fails: on a body whose sentinel line is followed by a
    data line, the sequence ends without error and the chunk of the
    line after the sentinel has been yielded. *)
Lemma C2_chunk_after_sentinel_counterexample :
  let '(r, _, j) :=
    stream_chat.sync Scripted.hello (Some "stale") None None None Scripted.data_after_sentinel in
  r = Ok tt /\ yielded j = [chunk_json].
Proof. by vm_compute. Qed.

(** C6 as stated fails: an OK response whose Content-Type header is
    not the text [text/event-stream], because a charset parameter
    follows it, is accepted, and its chunk is yielded. *)
Lemma C6_charset_parameter_counterexample :
  let resp := Scripted.body_of "text/event-stream; charset=utf-8" [data_line] in
  status_code resp = OK
  /\ r_headers resp !! "content-type" <> Some stream_chat.EVENT_STREAM
  /\ client_stream
       (stream_chat._get_kwargs Scripted.hello (Some "stale") None None None)
       (world Scripted.with_charset) = (inr resp, Scripted.mk_remote [] [] [])
  /\ let '(r, _, j) :=
       stream_chat.sync Scripted.hello (Some "stale") None None None Scripted.with_charset in
     r = Ok tt /\ yielded j = [chunk_json].
Proof. by vm_compute. Qed.

(** C1 as stated fails: the first request is rejected, the token
    endpoint then refuses, and the callable is not invoked a second
    time: one invocation, one refresh, the refusal as the outcome, and
    the reply that would have served the retry still unread. *)
Lemma C1_refresh_refused_counterexample :
  client._use_auth (self Scripted.refresh_refused) = true
  /\ client._check_validity_token (self Scripted.refresh_refused) = true
  /\ fst (fst (chat_call Scripted.hello Scripted.refresh_refused))
     = Raise (AuthenticationError (mk_args "/chat/completions" 401 "" ∅))
  /\ let '(r, st', j) := client.chat Scripted.hello Scripted.refresh_refused in
     r = Raise (AuthBackendError 500)
     /\ count is_call j = 1%nat /\ count is_refresh j = 1%nat
     /\ Scripted.replies (world st') = [Scripted.completion].
Proof. by vm_compute. Qed.

(** C3 as stated fails: when the invocation that follows the refresh
    is rejected too, the error is raised and the refreshed token is
    still held; the next call goes on with it and does not refresh. *)
Lemma C3_token_kept_after_second_rejection_counterexample :
  let '(r, st', j) := client.chat Scripted.hello Scripted.rejected_twice in
  r = Raise (AuthenticationError (mk_args "/chat/completions" 401 "" ∅))
  /\ count is_call j = 2%nat
  /\ _access_token (self st') = Some Scripted.fresh
  /\ let '(r2, _, j2) := client.chat Scripted.hello st' in
     r2 = Ok completion_json /\ count is_refresh j2 = 0%nat.
Proof. by vm_compute. Qed.

(** C8 on a body with a malformed line between two good ones. *)
Lemma C8_malformed_data_line_witness :
  lines Scripted.malformed_in_the_middle = [data_line] ++ "data: {oops" :: [data_line]
  /\ str_partition ": " "data: {oops" = ("data", ": ", "{oops")
  /\ "{oops" <> "[DONE]"
  /\ parse_raw "{oops" = None
  /\ stream_chat.iter_lines Scripted.malformed_in_the_middle stream_chat.yield_chunk
       Scripted.rejected_once
     = (Raise ValidationError, Scripted.rejected_once, [Yield chunk_json]).
Proof.
  assert (Hvalue : "{oops" <> "[DONE]") by discriminate.
  exact (conj eq_refl (conj eq_refl (conj Hvalue (conj eq_refl
    (C8_malformed_data_line_is_a_hard_error Scripted.malformed_in_the_middle
       [data_line] [data_line] "data: {oops" ": " "{oops" Scripted.rejected_once
       eq_refl eq_refl Hvalue eq_refl))))).
Defined.

(** C6 on a JSON body answered to a streaming request. *)
Lemma C6_media_type_mismatch_witness :
  let kwargs := stream_chat._get_kwargs Scripted.hello (Some "stale") None None None in
  let resp := Scripted.body_of "application/json" [data_line] in
  client_stream kwargs (world Scripted.json_instead) = (inr resp, Scripted.mk_remote [] [] [])
  /\ status_code resp = OK
  /\ str_partition ";" (default "" (r_headers resp !! "content-type"))
     = ("application/json", "", "")
  /\ "application/json" <> stream_chat.EVENT_STREAM
  /\ stream_chat.sync Scripted.hello (Some "stale") None None None Scripted.json_instead
     = (Raise (TransportError "application/json"),
        mk_state (self Scripted.json_instead) (Scripted.mk_remote [] [] []),
        [Stream kwargs]).
Proof.
  intros kwargs resp.
  assert (Hne : "application/json" <> stream_chat.EVENT_STREAM) by discriminate.
  exact (conj eq_refl (conj eq_refl (conj eq_refl (conj Hne
    (C6_media_type_mismatch_raises Scripted.hello (Some "stale") None None None
       Scripted.json_instead resp (Scripted.mk_remote [] [] [])
       "application/json" "" "" eq_refl eq_refl eq_refl Hne))))).
Defined.

(** C1 on a token rejected once: two invocations, one refresh. *)
Lemma C1_one_refresh_then_one_more_attempt_witness :
  client._use_auth (self Scripted.rejected_once) = true
  /\ client._check_validity_token (self Scripted.rejected_once) = true
  /\ let '(r, st', j) := client._decorator (chat_call Scripted.hello) Scripted.rejected_once in
     r = Ok completion_json /\ _access_token (self st') = Some Scripted.fresh
     /\ count is_call j = 2%nat /\ count is_refresh j = 1%nat.
Proof.
  split; [reflexivity|]. split; [reflexivity|].
  pose proof (C1_one_refresh_then_one_more_attempt
                (chat_call Scripted.hello) Scripted.rejected_once eq_refl eq_refl) as Hthm.
  vm_compute in Hthm. vm_compute.
  destruct Hthm as (_ & _ & _ & Hcalls & Hrefreshes). by repeat split.
Defined.

(** C5 on a server failure: one request, the client unchanged. *)
Lemma C5_other_errors_propagate_witness :
  let e := ResponseError (mk_args "/chat/completions" 500 "oops" ∅) in
  is_authentication_error e = false
  /\ client.chat Scripted.hello Scripted.server_error
     = (Raise e,
        mk_state (self Scripted.server_error) (Scripted.mk_remote [] [Ok Scripted.fresh] []),
        [Call [Request (post_chat._get_kwargs Scripted.hello (Some "stale") None None None)]]).
Proof.
  intros e. split; [reflexivity|].
  assert (Hok : 500 <> OK) by discriminate.
  assert (Hun : 500 <> UNAUTHORIZED) by discriminate.
  exact (proj2 (proj2 (C5_other_errors_propagate
                         (chat_call Scripted.hello) Scripted.server_error e eq_refl))
           Scripted.hello
           (mk_response "/chat/completions" 500 ∅ "oops" [] None)
           (Scripted.mk_remote [] [Ok Scripted.fresh] [])
           (or_intror eq_refl) eq_refl Hok Hun).
Defined.

(** C3 on a token rejected at the first invocation. *)
Lemma C3_token_discarded_on_first_failure_only_witness :
  let call := chat_call hello in
  let a := mk_args "/chat/completions" 401 "" ∅ in
  let st1 :=
    mk_state (self rejected_twice) (mk_remote [unauthorized; completion] [Ok fresh] []) in
  let j1 := [Request (post_chat._get_kwargs hello (Some "stale") None None None)] in
  client._use_auth (self rejected_twice) = true
  /\ client._check_validity_token (self rejected_twice) = true
  /\ call rejected_twice = (Raise (AuthenticationError a), st1, j1)
  /\ _access_token (self (discarded st1)) = None
  /\ client._decorator call rejected_twice =
       after [Call j1; Log "WARNING" "AUTHENTICATION ERROR"; Reset]
         ((client._update_token ;; invoke call) (discarded st1))
  /\ let '(r, st', j) := client._decorator call rejected_twice in
     r = Raise (AuthenticationError a)
     /\ count is_reset j = 1%nat
     /\ _access_token (self st') = Some fresh
     /\ (forall T' (next : M T'),
           let '(_, _, jn) := client._decorator next st' in
           exists rest, jn = Call (snd (next st')) :: rest).
Proof.
  intros call a st1 j1. split; [reflexivity|]. split; [reflexivity|]. split; [reflexivity|].
  pose proof (C3_token_discarded_on_first_failure_only call rejected_twice a st1 j1
                eq_refl eq_refl eq_refl) as (Hdiscarded & Hrun & Hretry).
  split; [exact Hdiscarded|]. split; [exact Hrun|].
  pose proof (Hretry
    (holds rejected_twice (Some fresh) (mk_remote [unauthorized; completion] [] []))
    [Refresh; PostAuth "https://auth.example/oauth" "c2VjcmV0" "GIGACHAT_API_PERS";
     Log "INFO" "OAUTH UPDATE TOKEN"]
    a
    (holds rejected_twice (Some fresh) (mk_remote [completion] [] []))
    [Request (post_chat._get_kwargs hello (Some "fresh") None None None)]
    eq_refl eq_refl) as Hsecond.
  destruct (client._decorator call rejected_twice) as [[r st'] j].
  destruct Hsecond as (Hr & Hst & Hreset & Hkept).
  destruct (Hkept eq_refl eq_refl) as (Htoken & _ & Hnext).
  split; [exact Hr|]. split; [exact Hreset|]. split; [|exact Hnext].
  rewrite Htoken. reflexivity.
Defined.

(** C7 on a client that holds a token with authentication off. *)
Lemma C7_no_credential_when_authentication_is_off_witness :
  client._use_auth (self Scripted.auth_off) = false
  /\ is_Some (_access_token (self Scripted.auth_off))
  /\ client.token (self Scripted.auth_off) = None
  /\ forall T (call : M T), client._decorator call Scripted.auth_off = invoke call Scripted.auth_off.
Proof.
  split; [reflexivity|]. split; [by eexists|].
  pose proof (C7_no_credential_when_authentication_is_off Scripted.auth_off eq_refl) as Hthm.
  split; [exact (proj1 Hthm) | exact (proj1 (proj2 Hthm))].
Defined.

(** C9 on the scripted remote, whose two transports are one. *)
Lemma C9_sync_and_async_dispatch_agree_witness :
  (forall kwargs w, aclient_request kwargs w = client_request kwargs w)
  /\ (forall kwargs w, aclient_stream kwargs w = client_stream kwargs w)
  /\ (forall url credentials scope w,
        post_auth_asyncio url credentials scope w = post_auth_sync url credentials scope w)
  /\ (forall user password w,
        post_token_asyncio user password w = post_token_sync user password w)
  /\ client.achat Scripted.hello Scripted.rejected_once
     = client.chat Scripted.hello Scripted.rejected_once
  /\ client.astream Scripted.hello Scripted.data_after_sentinel
     = client.stream Scripted.hello Scripted.data_after_sentinel.
Proof.
  pose proof (C9_sync_and_async_dispatch_agree
                (fun _ _ => eq_refl) (fun _ _ => eq_refl)
                (fun _ _ _ _ => eq_refl) (fun _ _ _ => eq_refl)) as Hthm.
  do 4 (split; [reflexivity|]).
  split; [exact (proj1 (proj2 Hthm) _ _) | exact (proj2 (proj2 Hthm) _ _)].
Defined.

End ScriptedRuns.

(** * More properties *)

(** ** More on the decoder *)

(** A line whose field name is [data] is the bare name or the name,
    the separator and a value. *)
Lemma data_field_line line sep value :
  str_partition ": " line = ("data", sep, value) ->
  line = "data" /\ value = "" \/ line = "data: " +:+ value.
Proof.
  intros Hp. pose proof (str_partition_join ": " line) as Hj. rewrite Hp in Hj.
  unfold str_partition in Hp. destruct (find_sep ": " line) as [[b r]|].
  - right. injection Hp as _ <- _. by rewrite <- Hj.
  - left. by injection Hp as -> _ <-.
Qed.

Section MoreDecoder.
Context `{Transport}.

(** X1. A line that is neither the bare field name [data] nor [data: ]
    followed by a value gives no chunk and raises nothing: comments,
    other fields, blank keep-alives, and [data:] without the space. *)
Theorem X1_lines_of_other_fields_are_ignored (line : string) :
  line <> "data" ->
  (forall value, line <> "data: " +:+ value) ->
  stream_chat._parse_chunk line = Ok None.
Proof.
  intros Hbare Hdata. unfold stream_chat._parse_chunk.
  destruct (str_partition ": " line) as [[name sep] value] eqn:Hp.
  destruct (String.eqb_spec name "data") as [->|]; [|done].
  by destruct (data_field_line _ _ _ Hp) as [[? _]|?]; [|destruct (Hdata value)].
Qed.

(** X2. A body made of values framed as [data: ] lines, none of them
    the sentinel and each one parseable, decodes to exactly the parsed
    chunks, one per line and in order, and ends cleanly; a value may
    itself contain the separator. *)
Theorem X2_framed_values_decode_in_order
    (values : list string) (chunks : list ChatCompletionChunk) st :
  Forall2 (fun value chunk => value <> "[DONE]" /\ parse_raw value = Some chunk)
    values chunks ->
  for_ (map (String.append "data: ") values) stream_chat.yield_chunk st
  = (Ok tt, st, map Yield chunks).
Proof.
  induction 1 as [|value chunk values chunks [Hvalue Hraw] _ IH]; [done|].
  simpl map. simpl for_. rewrite bind_run, yield_chunk_run.
  unfold stream_chat._parse_chunk. rewrite str_partition_data. simpl String.eqb.
  destruct (String.eqb_spec value "[DONE]"); [done|].
  rewrite Hraw. cbv iota beta. by rewrite IH.
Qed.
(** X3. A line for which [_parse_chunk] returns nothing can be dropped
    from a body, or inserted into it, anywhere: outcome, state and
    journal of the line loop are the same. *)
Theorem X3_lines_that_yield_nothing_are_transparent
    (resp : response) (pre post : list string) (line : string) st :
  stream_chat._parse_chunk line = Ok None ->
  stream_chat.iter_lines (with_lines resp (pre ++ line :: post)) stream_chat.yield_chunk st
  = stream_chat.iter_lines (with_lines resp (pre ++ post)) stream_chat.yield_chunk st.
Proof.
  intros Hline. rewrite !iter_lines_run. simpl. rewrite !for_app.
  destruct (for_ pre stream_chat.yield_chunk st) as [[[[]|e] st1] j1]; [|done].
  simpl for_. rewrite bind_run, yield_chunk_run, Hline. by rewrite after_nil.
Qed.

(** X4. Decoding one body after another: when the first decodes to
    its end the chunks of the second follow its own and the outcome is
    that of the second; when the first stops on a malformed line the
    second is never looked at. The loop keeps no state between lines. *)
Theorem X4_decoding_two_bodies_in_a_row (first second : list string) st :
  let '(r1, _, j1) := for_ first stream_chat.yield_chunk st in
  let '(r2, _, j2) := for_ second stream_chat.yield_chunk st in
  for_ (first ++ second) stream_chat.yield_chunk st =
    match r1 with
    | Ok _ => (r2, st, j1 ++ j2)
    | Raise e => (Raise e, st, j1)
    end.
Proof.
  rewrite for_app.
  pose proof (for_yield_chunk first st) as H1.
  destruct (for_ first stream_chat.yield_chunk st) as [[r1 st1] j1].
  destruct H1 as (-> & _ & _).
  pose proof (for_yield_chunk second st) as H2.
  destruct (for_ second stream_chat.yield_chunk st) as [[r2 st2] j2].
  destruct H2 as (-> & _ & _). by destruct r1 as [[]|e].
Qed.

Lemma yielded_length_chunks (j : list event) :
  forallb is_yield j = true -> length (yielded j) = length j.
Proof.
  induction j as [|e j IH]; simpl; [done|].
  destruct e; simpl; try done. intros Hj. by rewrite IH.
Qed.

Lemma for_yield_chunk_length lines st :
  let '(_, _, j) := for_ lines stream_chat.yield_chunk st in
  (length j <= length lines)%nat.
Proof.
  induction lines as [|line lines IH]; simpl; [done|].
  rewrite bind_run, yield_chunk_run.
  destruct (stream_chat._parse_chunk line) as [[chunk|]|e]; simpl;
    [| |lia].
  - destruct (for_ lines stream_chat.yield_chunk st) as [[r st'] j]. simpl. lia.
  - destruct (for_ lines stream_chat.yield_chunk st) as [[r st'] j]. simpl. lia.
Qed.

(** X5. [stream_chat.sync] never touches the client object, opens
    exactly one stream, journals nothing but chunks after it, at most
    one chunk per delivered line, and none when the opening fails. *)
Theorem X5_stream_endpoint_keeps_the_client_and_opens_once
    chat access_token client_id session_id request_id st :
  let kwargs :=
    stream_chat._get_kwargs chat access_token client_id session_id request_id in
  let '(r, st', j) :=
    stream_chat.sync chat access_token client_id session_id request_id st in
  self st' = self st
  /\ exists chunks,
       j = Stream kwargs :: chunks /\ forallb is_yield chunks = true
       /\ (forall resp w,
             client_stream kwargs (world st) = (inr resp, w) ->
             (length chunks <= length (lines resp))%nat)
       /\ (forall kind w,
             client_stream kwargs (world st) = (inl kind, w) ->
             r = Raise (HTTPError kind) /\ chunks = []).
Proof.
  intros kwargs. rewrite sync_run. fold kwargs. cbv zeta.
  destruct (client_stream kwargs (world st)) as [[kind|resp] w].
  - split; [done|]. exists []. split_and!; try done; intros; by simplify_eq.
  - destruct (stream_chat._check_response resp) as [[]|e].
    + rewrite iter_lines_run.
      pose proof (for_yield_chunk (lines resp) (mk_state (self st) w)) as Hl.
      pose proof (for_yield_chunk_length (lines resp) (mk_state (self st) w)) as Hn.
      destruct (for_ (lines resp) stream_chat.yield_chunk _) as [[r1 st1] j1].
      destruct Hl as (-> & Hy & [-> | ->]); [destruct (broken resp)|];
        simpl; (split; [done|]); exists j1;
        split_and!; try done; intros; by simplify_eq.
    + split; [done|]. exists [].
      split_and!; try done; intros; simplify_eq; simpl; lia.
Qed.

(** X6. On a status other than OK the streaming endpoint decodes no
    line of the body: it raises [AuthenticationError] for UNAUTHORIZED
    and [ResponseError] otherwise, both with an empty content whatever
    the response carries, right after the opening. *)
Theorem X6_a_refused_stream_yields_nothing
    chat access_token client_id session_id request_id st (resp : response) w :
  let kwargs :=
    stream_chat._get_kwargs chat access_token client_id session_id request_id in
  client_stream kwargs (world st) = (inr resp, w) ->
  status_code resp <> OK ->
  stream_chat.sync chat access_token client_id session_id request_id st =
    (Raise ((if status_code resp =? UNAUTHORIZED
             then AuthenticationError else ResponseError)
              (mk_args (r_url resp) (status_code resp) "" (r_headers resp))),
     mk_state (self st) w, [Stream kwargs]).
Proof.
  intros kwargs Hstream Hstatus. rewrite sync_run. fold kwargs. cbv zeta.
  rewrite Hstream. unfold stream_chat._check_response.
  destruct (Z.eqb_spec (status_code resp) OK); [done|].
  by destruct (status_code resp =? UNAUTHORIZED).
Qed.

(** X7. [_check_content_type] accepts exactly the responses whose
    Content-Type header is [text/event-stream], alone or followed by
    [;] and anything; a response without the header is refused. *)
Theorem X7_accepted_content_types (resp : response) :
  stream_chat._check_content_type resp = Ok tt <->
  r_headers resp !! "content-type" = Some stream_chat.EVENT_STREAM
  \/ exists params,
       r_headers resp !! "content-type"
       = Some (stream_chat.EVENT_STREAM +:+ ";" +:+ params).
Proof.
  unfold stream_chat._check_content_type. split.
  - pose proof (str_partition_join ";" (default "" (r_headers resp !! "content-type"))) as Hj.
    unfold str_partition in *.
    destruct (find_sep ";" (default "" (r_headers resp !! "content-type")))
      as [[before rest]|] eqn:Hf.
    + destruct (String.eqb_spec before stream_chat.EVENT_STREAM) as [->|]; [|done].
      intros _. right. exists rest.
      destruct (r_headers resp !! "content-type") as [v|]; simpl in *; [by rewrite Hj|].
      done.
    + destruct (String.eqb_spec (default "" (r_headers resp !! "content-type"))
                  stream_chat.EVENT_STREAM) as [Heq|]; [|done].
      intros _. left.
      destruct (r_headers resp !! "content-type") as [v|]; simpl in *; [by rewrite Heq|].
      done.
  - intros [-> | [params ->]]; reflexivity.
Qed.

End MoreDecoder.

(** ** More on the requests *)

Section MoreRequests.
Context `{Models}.

(** X8. Both endpoints attach each of X-Client-ID, X-Session-ID and
    X-Request-ID exactly when its argument is a non-empty string, with
    the argument as the value, independently of one another and of the
    credential. *)
Theorem X8_identity_headers_are_passed_through
    (chat : Chat.t Body) (access_token client_id session_id request_id : option string) :
  let post := headers (post_chat._get_kwargs chat access_token client_id session_id request_id) in
  let streaming :=
    headers (stream_chat._get_kwargs chat access_token client_id session_id request_id) in
  post !! "X-Client-ID" = passed client_id
  /\ post !! "X-Session-ID" = passed session_id
  /\ post !! "X-Request-ID" = passed request_id
  /\ streaming !! "X-Client-ID" = passed client_id
  /\ streaming !! "X-Session-ID" = passed session_id
  /\ streaming !! "X-Request-ID" = passed request_id.
Proof.
  unfold post_chat._get_kwargs, stream_chat._get_kwargs, passed. simpl.
  destruct (truthy access_token);
    destruct client_id as [[|? ?]|], session_id as [[|? ?]|], request_id as [[|? ?]|];
    simpl; split_and!; by simplify_map_eq.
Qed.

(** X9. A chat request carries no header besides Authorization and
    the three identity headers, and none at all when all four arguments
    are absent or empty; a streaming request always carries Accept and
    Cache-Control besides. *)
Theorem X9_no_header_beyond_the_known_ones
    (chat : Chat.t Body) (access_token client_id session_id request_id : option string)
    (name : string) :
  let post := headers (post_chat._get_kwargs chat access_token client_id session_id request_id) in
  let streaming :=
    headers (stream_chat._get_kwargs chat access_token client_id session_id request_id) in
  (is_Some (post !! name) ->
   name ∈ ["Authorization"; "X-Client-ID"; "X-Session-ID"; "X-Request-ID"])
  /\ (is_Some (streaming !! name) ->
      name ∈ ["Accept"; "Cache-Control"; "Authorization"; "X-Client-ID"; "X-Session-ID";
              "X-Request-ID"])
  /\ streaming !! "Accept" = Some stream_chat.EVENT_STREAM
  /\ streaming !! "Cache-Control" = Some "no-store"
  /\ (truthy access_token = false -> truthy client_id = false ->
      truthy session_id = false -> truthy request_id = false -> post = ∅).
Proof.
  unfold post_chat._get_kwargs, stream_chat._get_kwargs. simpl.
  destruct (truthy access_token), (truthy client_id), (truthy session_id),
    (truthy request_id); split_and!; try done;
    try (by simplify_map_eq);
    intros [v Hv];
    repeat (apply lookup_insert_Some in Hv as [[<- _]|[_ Hv]]; [set_solver|]);
    by rewrite lookup_empty in Hv.
Qed.

(** X10. Whatever the payload says of [stream], the chat request
    leaves the flag out and the streaming request sets it; both carry
    the body of the payload and the model of the settings when that is
    a non-empty string, the payload's own otherwise; [_parse_chat]
    applied twice changes nothing more. *)
Theorem X10_the_endpoint_decides_the_stream_flag (payload : Chat.t Body)
    (model access_token client_id session_id request_id : option string) :
  let chat := client._parse_chat payload model in
  let post := json (post_chat._get_kwargs chat access_token client_id session_id request_id) in
  let streaming :=
    json (stream_chat._get_kwargs chat access_token client_id session_id request_id) in
  Chat.stream post = None /\ Chat.stream streaming = Some true
  /\ Chat.model post = (if truthy model then model else Chat.model payload)
  /\ Chat.model streaming = (if truthy model then model else Chat.model payload)
  /\ Chat.body post = Chat.body payload /\ Chat.body streaming = Chat.body payload
  /\ client._parse_chat chat model = chat.
Proof.
  unfold client._parse_chat. by destruct (truthy model) eqn:Hm; simpl; rewrite ?Hm.
Qed.

End MoreRequests.

Section MoreEndpoints.
Context `{Transport}.

(** X11. [post_chat.sync] sends exactly one request and leaves the
    client object alone; it returns a completion only for an OK
    response whose content parses, raises [AuthenticationError] only
    for UNAUTHORIZED, with the content of the response, and an [httpx]
    error only when the transport gave no response. *)
Theorem X11_one_request_and_what_it_gives
    chat access_token client_id session_id request_id st :
  let kwargs := post_chat._get_kwargs chat access_token client_id session_id request_id in
  let '(r, st', j) := post_chat.sync chat access_token client_id session_id request_id st in
  j = [Request kwargs] /\ self st' = self st
  /\ (forall completion,
        r = Ok completion ->
        exists resp,
          client_request kwargs (world st) = (inr resp, world st')
          /\ status_code resp = OK
          /\ ChatCompletion_of_json (content resp) = Some completion)
  /\ (forall a,
        r = Raise (AuthenticationError a) ->
        exists resp,
          client_request kwargs (world st) = (inr resp, world st')
          /\ status_code resp = UNAUTHORIZED
          /\ a = mk_args (r_url resp) UNAUTHORIZED (content resp) (r_headers resp))
  /\ (forall kind,
        r = Raise (HTTPError kind) ->
        client_request kwargs (world st) = (inl kind, world st')).
Proof.
  intros kwargs. unfold post_chat.sync. fold kwargs. cbv zeta.
  rewrite bind_run. unfold post_chat.request_, lift.
  destruct (client_request kwargs (world st)) as [[kind|resp] w] eqn:Hreq; simpl.
  { split_and!; try done; intros; by simplify_eq. }
  unfold post_chat._build_response.
  destruct (Z.eqb_spec (status_code resp) OK) as [Hok|Hok].
  - destruct (ChatCompletion_of_json (content resp)) as [c|] eqn:Hc;
      split_and!; try done; intros; simplify_eq; by eauto.
  - destruct (Z.eqb_spec (status_code resp) UNAUTHORIZED) as [Hun|Hun];
      split_and!; try done; intros; simplify_eq.
    exists resp. by rewrite Hun.
Qed.

End MoreEndpoints.

(** ** More on the client *)

Section MoreClient.
Context `{Transport}.

Lemma _update_token_oauth st :
  truthy (Settings.credentials (_settings (self st))) = true ->
  let settings := _settings (self st) in
  let url := Settings.auth_url settings in
  let credentials := default "" (Settings.credentials settings) in
  let scope := Settings.scope settings in
  client._update_token st =
    match post_auth_sync url credentials scope (world st) with
    | (Ok access_token, w) =>
        (Ok tt, holds st (Some access_token) w,
         [Refresh; PostAuth url credentials scope; Log "INFO" "OAUTH UPDATE TOKEN"])
    | (Raise e, w) =>
        (Raise e, mk_state (self st) w, [Refresh; PostAuth url credentials scope])
    end.
Proof.
  intros Hc. unfold client._update_token. rewrite bind_run. unfold emit at 1. cbv iota beta.
  rewrite bind_run, gets_run. cbv iota beta zeta. rewrite Hc, bind_run.
  unfold client.post_auth_sync_.
  by destruct (post_auth_sync _ _ _ (world st)) as [[tok|e] w].
Qed.

Lemma _update_token_password st :
  truthy (Settings.credentials (_settings (self st))) = false ->
  truthy (Settings.user (_settings (self st))) = true ->
  truthy (Settings.password (_settings (self st))) = true ->
  let settings := _settings (self st) in
  let user := default "" (Settings.user settings) in
  let password := default "" (Settings.password settings) in
  client._update_token st =
    match post_token_sync user password (world st) with
    | (Ok token, w) =>
        (Ok tt, holds st (Some (client._build_access_token token)) w,
         [Refresh; PostToken user password; Log "INFO" "UPDATE TOKEN"])
    | (Raise e, w) =>
        (Raise e, mk_state (self st) w, [Refresh; PostToken user password])
    end.
Proof.
  intros Hc Hu Hp. unfold client._update_token. rewrite bind_run. unfold emit at 1.
  cbv iota beta. rewrite bind_run, gets_run. cbv iota beta zeta. rewrite Hc, Hu, Hp.
  cbn [andb]. rewrite bind_run. unfold client.post_token_sync_.
  by destruct (post_token_sync _ _ (world st)) as [[tok|e] w].
Qed.

Lemma _update_token_nothing st :
  truthy (Settings.credentials (_settings (self st))) = false ->
  truthy (Settings.user (_settings (self st)))
  && truthy (Settings.password (_settings (self st))) = false ->
  client._update_token st = (Ok tt, st, [Refresh]).
Proof.
  intros Hc Hup. unfold client._update_token. rewrite bind_run. unfold emit at 1.
  cbv iota beta. rewrite bind_run, gets_run. cbv iota beta. by rewrite Hc, Hup.
Qed.

Lemma chat_call_shape chat st :
  let '(r, st', j) := chat_call chat st in
  j = [Request (post_chat._get_kwargs chat (client.token (self st)) None None None)]
  /\ self st' = self st.
Proof.
  rewrite chat_call_run. cbv zeta.
  by destruct (client_request _ (world st)) as [[kind|resp] w].
Qed.

(** X12. A new client holds a token exactly when the configured
    access token is a non-empty string, with expiry 0; [token] presents
    it only while authentication is on. *)
Theorem X12_the_configured_token (settings : Settings.t) :
  let this := __init__ settings in
  _settings this = settings
  /\ client._check_validity_token this = truthy (Settings.access_token settings)
  /\ client.token this
     = (if Settings.use_auth settings then passed (Settings.access_token settings) else None)
  /\ (forall access_token, _access_token this = Some access_token ->
        AccessToken.expires_at access_token = 0).
Proof.
  unfold __init__, client.token, client._check_validity_token, passed. simpl.
  destruct (Settings.access_token settings) as [[|c s]|]; simpl;
    destruct (Settings.use_auth settings); split_and!; try done; by intros ? [= <-].
Qed.

(** X13. [_update_token] never changes the settings and makes at most
    one token exchange; it raises only out of an exchange, and then the
    client is as before; an exchange that returns leaves a token held;
    and with no exchange nothing changes at all. *)
Theorem X13_refresh_invariants st :
  let '(r, st', j) := client._update_token st in
  _settings (self st') = _settings (self st)
  /\ (count is_post j <= 1)%nat
  /\ (forall e, r = Raise e -> self st' = self st /\ count is_post j = 1%nat)
  /\ (r = Ok tt -> count is_post j = 1%nat -> is_Some (_access_token (self st')))
  /\ (count is_post j = 0%nat -> r = Ok tt /\ st' = st).
Proof.
  destruct (truthy (Settings.credentials (_settings (self st)))) eqn:Hc.
  - rewrite (_update_token_oauth st Hc). cbv zeta.
    destruct (post_auth_sync _ _ _ (world st)) as [[tok|e] w]; simpl;
      split_and!; try done; try lia; by eauto.
  - destruct (truthy (Settings.user (_settings (self st)))) eqn:Hu;
      [destruct (truthy (Settings.password (_settings (self st)))) eqn:Hp|].
    + rewrite (_update_token_password st Hc Hu Hp). cbv zeta.
      destruct (post_token_sync _ _ (world st)) as [[tok|e] w]; simpl;
        split_and!; try done; try lia; by eauto.
    + rewrite _update_token_nothing; [|done|by rewrite Hu, Hp].
      simpl. split_and!; try done; lia.
    + rewrite _update_token_nothing; [|done|by rewrite Hu].
      simpl. split_and!; try done; lia.
Qed.

(** Where the reset stands in a journal that holds it once, third. *)
Lemma reset_in_place (first second : event) (later before rest : list event) :
  is_reset first = false -> is_reset second = false ->
  count is_reset later = 0%nat ->
  first :: second :: Reset :: later = before ++ Reset :: rest ->
  before = [first; second] /\ rest = later.
Proof.
  intros Hfirst Hsecond Hlater Heq.
  destruct before as [|b1 [|b2 [|b3 before]]]; simpl in Heq.
  - injection Heq as -> _. by simpl in Hfirst.
  - injection Heq as _ -> _. by simpl in Hsecond.
  - by injection Heq as -> -> ->.
  - injection Heq as _ _ _ ->. rewrite count_app in Hlater. simpl in Hlater. lia.
Qed.

Lemma no_reset_to_find (j before rest : list event) :
  count is_reset j = 0%nat -> j <> before ++ Reset :: rest.
Proof. intros Hj ->. rewrite count_app in Hj. simpl in Hj. lia. Qed.

(** X14. In every state, for every callable, [_decorator] invokes it
    at most twice and refreshes at most once. A reset happens only when
    a token was held, and then the journal is the first invocation, the
    warning, the reset and, right after it, the refresh: nothing comes
    between them and no reset comes later. A run without any invocation
    raised; with authentication off there is one invocation and no
    refresh. *)
Theorem X14_dispatch_bounds {T} (call : M T) st :
  let '(r, st', j) := client._decorator call st in
  (count is_call j <= 2)%nat /\ (count is_refresh j <= 1)%nat
  /\ (count is_reset j <= count is_refresh j)%nat
  /\ (count is_call j = 0%nat -> exists e, r = Raise e)
  /\ (client._use_auth (self st) = false ->
      count is_call j = 1%nat /\ count is_refresh j = 0%nat)
  /\ (count is_reset j = 1%nat -> client._check_validity_token (self st) = true)
  /\ (forall before rest,
        j = before ++ Reset :: rest ->
        exists later,
          before = [Call (snd (call st)); Log "WARNING" "AUTHENTICATION ERROR"]
          /\ rest = Refresh :: later
          /\ count is_reset later = 0%nat /\ count is_refresh later = 0%nat).
Proof.
  rewrite _decorator_retry_once. unfold retry_once.
  assert (Htail : forall s,
    let '(r, st', j) := (client._update_token ;; invoke call) s in
    (count is_call j <= 1)%nat /\ count is_refresh j = 1%nat /\ count is_reset j = 0%nat
    /\ (count is_call j = 0%nat -> exists e, r = Raise e)
    /\ exists later, j = Refresh :: later
         /\ count is_reset later = 0%nat /\ count is_refresh later = 0%nat).
  { intros s. rewrite bind_run.
    pose proof (_update_token_journal s) as Hj.
    destruct (client._update_token s) as [[[[]|e] s2] j2];
      destruct Hj as (rest & -> & Hrest & _);
      apply exchanges_quiet in Hrest as (_ & Hc & Hr & Hz & _).
    - unfold invoke. destruct (call s2) as [[r3 s3] j3]. simpl.
      rewrite !count_app, Hc, Hr, Hz. simpl. split_and!; try lia.
      eexists. split; [done|]. rewrite !count_app, Hr, Hz. simpl. lia.
    - simpl. rewrite Hc, Hr, Hz. split_and!; try lia; [by eauto|].
      eexists. split; [done|]. lia. }
  destruct (client._use_auth (self st)).
  - destruct (client._check_validity_token (self st)).
    + unfold invoke at 1. destruct (call st) as [[[v|e] st1] j1];
        [simpl; split_and!; try done; try lia;
         intros ? ? Heq; by apply (no_reset_to_find [Call j1]) in Heq|].
      destruct e;
        try (simpl; split_and!; try done; try lia;
             intros ? ? Heq; by apply (no_reset_to_find [Call j1]) in Heq).
      specialize (Htail (discarded st1)).
      destruct ((client._update_token ;; invoke call) (discarded st1)) as [[r3 st3] j3].
      destruct Htail as (Hc & Hr & Hz & _ & later & -> & Hzl & Hrl). simpl.
      simpl in Hc, Hr, Hz. rewrite Hrl, Hzl.
      split_and!; try done; try lia.
      intros before rest Heq.
      apply reset_in_place in Heq as [-> Hrest]; try done. subst rest. by eauto.
    + specialize (Htail st).
      destruct ((client._update_token ;; invoke call) st) as [[r3 st3] j3].
      destruct Htail as (Hc & Hr & Hz & He & _). rewrite Hr, Hz.
      split_and!; try done; try lia.
      intros ? ? Heq. by apply no_reset_to_find in Heq.
  - unfold invoke. destruct (call st) as [[r1 st1] j1]. simpl.
    split_and!; try done; try lia.
    intros ? ? Heq. by apply (no_reset_to_find [Call j1]) in Heq.
Qed.

End MoreClient.

Section MoreCalls.
Context `{Transport}.

(** [chat] when no token is held: the refresh, then one invocation. *)
Lemma chat_without_token payload st :
  client._use_auth (self st) = true ->
  _access_token (self st) = None ->
  client.chat payload st =
    (client._update_token ;;
     invoke (chat_call (client._parse_chat payload (Settings.model (_settings (self st)))))) st.
Proof.
  intros Hauth Hnone. rewrite chat_decorator, _decorator_retry_once. unfold retry_once.
  rewrite Hauth. unfold client._check_validity_token. by rewrite Hnone.
Qed.

(** [chat] when the held token is rejected. *)
Lemma chat_rejected payload st (resp : response) w :
  let chat := client._parse_chat payload (Settings.model (_settings (self st))) in
  let kwargs := post_chat._get_kwargs chat (client.token (self st)) None None None in
  client._use_auth (self st) = true ->
  client._check_validity_token (self st) = true ->
  client_request kwargs (world st) = (inr resp, w) ->
  status_code resp = UNAUTHORIZED ->
  client.chat payload st =
    after [Call [Request kwargs]; Log "WARNING" "AUTHENTICATION ERROR"; Reset]
      ((client._update_token ;; invoke (chat_call chat)) (holds st None w)).
Proof.
  intros chat kwargs Hauth Hvalid Hreq Hstatus.
  rewrite chat_decorator, _decorator_retry_once. fold chat. unfold retry_once.
  rewrite Hauth, Hvalid. unfold invoke at 1. rewrite chat_call_run. fold kwargs. cbv zeta.
  rewrite Hreq. unfold post_chat._build_response. by rewrite Hstatus.
Qed.

(** X15. A first [chat] without a token, with credentials configured,
    exchanges them, never the password, before any request. If the
    exchange returns, its token is held afterwards whatever the request
    gives and the one request carries it; if it raises, that is the
    outcome and no request is sent. *)
Theorem X15_first_call_signs_in_with_the_credentials payload st :
  client._use_auth (self st) = true ->
  _access_token (self st) = None ->
  truthy (Settings.credentials (_settings (self st))) = true ->
  let settings := _settings (self st) in
  let chat := client._parse_chat payload (Settings.model settings) in
  let exchange :=
    PostAuth (Settings.auth_url settings) (default "" (Settings.credentials settings))
      (Settings.scope settings) in
  let '(r, st', j) := client.chat payload st in
  match post_auth_sync (Settings.auth_url settings)
          (default "" (Settings.credentials settings)) (Settings.scope settings) (world st) with
  | (Ok access_token, _) =>
      _access_token (self st') = Some access_token
      /\ j = [Refresh; exchange; Log "INFO" "OAUTH UPDATE TOKEN";
              Call [Request (post_chat._get_kwargs chat
                               (Some (AccessToken.access_token access_token))
                               None None None)]]
  | (Raise e, w) =>
      r = Raise e /\ st' = mk_state (self st) w /\ j = [Refresh; exchange]
  end.
Proof.
  intros Hauth Hnone Hc settings chat exchange. subst settings chat exchange.
  rewrite chat_without_token by done.
  rewrite bind_run, (_update_token_oauth st Hc). cbv zeta.
  destruct (post_auth_sync _ _ _ (world st)) as [[tok|e] w]; [|done].
  unfold invoke. pose proof (chat_call_shape
    (client._parse_chat payload (Settings.model (_settings (self st))))
    (holds st (Some tok) w)) as Hshape.
  destruct (chat_call _ (holds st (Some tok) w)) as [[r st'] j].
  destruct Hshape as (-> & Hself). simpl. rewrite Hself. split; [done|].
  unfold client.token. simpl.
  unfold client._use_auth in Hauth. by rewrite Hauth.
Qed.

(** X16. Without credentials, with a user name and a password, the
    first [chat] exchanges those; the token held afterwards is built
    from the answer, [tok] as the credential and [exp] as the expiry. *)
Theorem X16_first_call_signs_in_with_the_password payload st :
  client._use_auth (self st) = true ->
  _access_token (self st) = None ->
  truthy (Settings.credentials (_settings (self st))) = false ->
  truthy (Settings.user (_settings (self st))) = true ->
  truthy (Settings.password (_settings (self st))) = true ->
  let settings := _settings (self st) in
  let chat := client._parse_chat payload (Settings.model settings) in
  let exchange :=
    PostToken (default "" (Settings.user settings)) (default "" (Settings.password settings)) in
  let '(r, st', j) := client.chat payload st in
  match post_token_sync (default "" (Settings.user settings))
          (default "" (Settings.password settings)) (world st) with
  | (Ok token, _) =>
      _access_token (self st') = Some (AccessToken.mk (Token.tok token) (Token.exp token))
      /\ j = [Refresh; exchange; Log "INFO" "UPDATE TOKEN";
              Call [Request (post_chat._get_kwargs chat (Some (Token.tok token))
                               None None None)]]
  | (Raise e, w) =>
      r = Raise e /\ st' = mk_state (self st) w /\ j = [Refresh; exchange]
  end.
Proof.
  intros Hauth Hnone Hc Hu Hp settings chat exchange. subst settings chat exchange.
  rewrite chat_without_token by done.
  rewrite bind_run, (_update_token_password st Hc Hu Hp). cbv zeta.
  destruct (post_token_sync _ _ (world st)) as [[tok|e] w]; [|done].
  unfold invoke.
  pose proof (chat_call_shape
    (client._parse_chat payload (Settings.model (_settings (self st))))
    (holds st (Some (client._build_access_token tok)) w)) as Hshape.
  destruct (chat_call _ _) as [[r st'] j].
  destruct Hshape as (-> & Hself). simpl. rewrite Hself. split; [done|].
  unfold client.token. simpl.
  unfold client._use_auth in Hauth. by rewrite Hauth.
Qed.

(** X17. With authentication on, no token, no credentials and not
    both a user name and a password, [chat] enters the refresh, which
    exchanges nothing, and sends its one request without an
    Authorization header; the client is unchanged. *)
Theorem X17_nothing_to_sign_in_with payload st :
  client._use_auth (self st) = true ->
  _access_token (self st) = None ->
  truthy (Settings.credentials (_settings (self st))) = false ->
  truthy (Settings.user (_settings (self st)))
  && truthy (Settings.password (_settings (self st))) = false ->
  let chat := client._parse_chat payload (Settings.model (_settings (self st))) in
  let kwargs := post_chat._get_kwargs chat None None None None in
  let '(r, st', j) := client.chat payload st in
  self st' = self st
  /\ j = [Refresh; Call [Request kwargs]]
  /\ headers kwargs !! "Authorization" = None.
Proof.
  intros Hauth Hnone Hc Hup chat kwargs. subst kwargs chat.
  rewrite chat_without_token by done.
  rewrite bind_run, _update_token_nothing by done. unfold invoke.
  pose proof (chat_call_shape
    (client._parse_chat payload (Settings.model (_settings (self st)))) st) as Hshape.
  destruct (chat_call _ st) as [[r st'] j]. destruct Hshape as (-> & Hself).
  simpl. split; [done|]. split; [|done].
  unfold client.token. rewrite Hnone. by destruct (Settings.use_auth _).
Qed.

(** X18. A client that was only given a token drops it when it is
    rejected: the refresh has nothing to exchange, the retry goes out
    without an Authorization header, and no token is held afterwards. *)
Theorem X18_a_static_token_is_not_sent_again payload st (resp : response) w :
  let chat := client._parse_chat payload (Settings.model (_settings (self st))) in
  let first := post_chat._get_kwargs chat (client.token (self st)) None None None in
  let second := post_chat._get_kwargs chat None None None None in
  client._use_auth (self st) = true ->
  client._check_validity_token (self st) = true ->
  truthy (Settings.credentials (_settings (self st))) = false ->
  truthy (Settings.user (_settings (self st)))
  && truthy (Settings.password (_settings (self st))) = false ->
  client_request first (world st) = (inr resp, w) ->
  status_code resp = UNAUTHORIZED ->
  let '(r, st', j) := client.chat payload st in
  _access_token (self st') = None
  /\ j = [Call [Request first]; Log "WARNING" "AUTHENTICATION ERROR"; Reset; Refresh;
          Call [Request second]]
  /\ headers second !! "Authorization" = None.
Proof.
  intros chat first second Hauth Hvalid Hc Hup Hreq Hstatus. subst second first chat.
  rewrite (chat_rejected payload st resp w) by done.
  rewrite bind_run, _update_token_nothing by done. unfold invoke.
  pose proof (chat_call_shape
    (client._parse_chat payload (Settings.model (_settings (self st))))
    (holds st None w)) as Hshape.
  destruct (chat_call _ (holds st None w)) as [[r st'] j].
  destruct Hshape as (-> & Hself).
  simpl. rewrite Hself. split; [done|]. split; [|done].
  unfold client.token. simpl. by destruct (Settings.use_auth _).
Qed.

(** X19. When the held token is rejected and the credentials are
    exchanged for a new one, the retry carries the new token, the new
    token is held afterwards whatever the retry gives, and the journal
    is the request, the warning, the reset, the refresh with its
    exchange and log record, and the second request. *)
Theorem X19_the_retry_carries_the_new_token
    payload st (resp : response) w (access_token : AccessToken.t) w' :
  let settings := _settings (self st) in
  let chat := client._parse_chat payload (Settings.model settings) in
  let first := post_chat._get_kwargs chat (client.token (self st)) None None None in
  let second :=
    post_chat._get_kwargs chat (Some (AccessToken.access_token access_token)) None None None in
  let url := Settings.auth_url settings in
  let credentials := default "" (Settings.credentials settings) in
  let scope := Settings.scope settings in
  client._use_auth (self st) = true ->
  client._check_validity_token (self st) = true ->
  truthy (Settings.credentials settings) = true ->
  client_request first (world st) = (inr resp, w) ->
  status_code resp = UNAUTHORIZED ->
  post_auth_sync url credentials scope w = (Ok access_token, w') ->
  let '(r, st', j) := client.chat payload st in
  _access_token (self st') = Some access_token
  /\ j = [Call [Request first]; Log "WARNING" "AUTHENTICATION ERROR"; Reset; Refresh;
          PostAuth url credentials scope; Log "INFO" "OAUTH UPDATE TOKEN";
          Call [Request second]].
Proof.
  intros settings chat first second url credentials scope
    Hauth Hvalid Hc Hreq Hstatus Hgrant. subst scope credentials url second first chat settings.
  rewrite (chat_rejected payload st resp w) by done.
  rewrite bind_run, (_update_token_oauth (holds st None w)) by done. cbv zeta.
  simpl _settings. simpl world. rewrite Hgrant.
  unfold invoke.
  pose proof (chat_call_shape
    (client._parse_chat payload (Settings.model (_settings (self st))))
    (holds (holds st None w) (Some access_token) w')) as Hshape.
  destruct (chat_call _ _) as [[r st'] j]. destruct Hshape as (-> & Hself).
  simpl. rewrite Hself. split; [done|].
  unfold client.token. simpl.
  unfold client._use_auth in Hauth. by rewrite Hauth.
Qed.

(** X21. When a stream is rejected at its opening and the credentials
    are exchanged for a new token, [stream] goes on exactly as the
    endpoint run with the new token: the body of the rejected response
    is never decoded, and what the second opening gives, a second
    rejection included, is the outcome. *)
Theorem X21_a_rejected_stream_is_reopened_with_the_new_token
    payload st (resp : response) w (access_token : AccessToken.t) w' :
  let settings := _settings (self st) in
  let chat := client._parse_chat payload (Settings.model settings) in
  let first := stream_chat._get_kwargs chat (client.token (self st)) None None None in
  let url := Settings.auth_url settings in
  let credentials := default "" (Settings.credentials settings) in
  let scope := Settings.scope settings in
  client._use_auth (self st) = true ->
  client._check_validity_token (self st) = true ->
  truthy (Settings.credentials settings) = true ->
  client_stream first (world st) = (inr resp, w) ->
  status_code resp = UNAUTHORIZED ->
  post_auth_sync url credentials scope w = (Ok access_token, w') ->
  client.stream payload st =
    after [Stream first; Log "WARNING" "AUTHENTICATION ERROR"; Reset; Refresh;
           PostAuth url credentials scope; Log "INFO" "OAUTH UPDATE TOKEN"]
      (stream_chat.sync chat (Some (AccessToken.access_token access_token)) None None None
         (holds st (Some access_token) w')).
Proof.
  intros settings chat first url credentials scope
    Hauth Hvalid Hc Hopen Hstatus Hgrant. subst scope credentials url first chat settings.
  rewrite stream_retry_once. unfold retry_once. rewrite Hauth, Hvalid.
  unfold stream_attempt at 1. rewrite bind_run, gets_run. cbv iota beta.
  rewrite after_nil, sync_run. cbv zeta. rewrite Hopen.
  unfold stream_chat._check_response. rewrite Hstatus. simpl Z.eqb. cbv iota.
  rewrite bind_run, (_update_token_oauth (discarded (mk_state (self st) w))) by done.
  cbv zeta. simpl _settings. simpl world. rewrite Hgrant.
  unfold stream_attempt. rewrite bind_run, gets_run. cbv iota beta. rewrite after_nil.
  unfold client.token. simpl. unfold client._use_auth in Hauth. rewrite Hauth.
  unfold holds. simpl.
  by destruct (stream_chat.sync _ _ _ _ _ _) as [[r st'] j].
Qed.

(** A dispatch over an attempt that keeps the settings keeps them. *)
Lemma retry_once_settings {T} (attempt : M T) :
  (forall s, let '(_, s', _) := attempt s in _settings (self s') = _settings (self s)) ->
  forall st, let '(_, st', _) := retry_once attempt st in
             _settings (self st') = _settings (self st).
Proof.
  intros Hat st. unfold retry_once.
  assert (Htail : forall s,
    let '(_, s', _) := (client._update_token ;; attempt) s in
    _settings (self s') = _settings (self s)).
  { intros s. rewrite bind_run. pose proof (_update_token_journal s) as Hj.
    destruct (client._update_token s) as [[[[]|e] s2] j2];
      destruct Hj as (rest & _ & _ & Hs); [|done].
    specialize (Hat s2). destruct (attempt s2) as [[r3 s3] j3]. simpl. congruence. }
  destruct (client._use_auth (self st)); [|apply Hat].
  destruct (client._check_validity_token (self st)); [|apply Htail].
  specialize (Hat st). destruct (attempt st) as [[[v|e] st1] j1]; [done|].
  destruct e; try done.
  specialize (Htail (discarded st1)).
  destruct ((client._update_token ;; attempt) (discarded st1)) as [[r3 st3] j3].
  simpl in *. congruence.
Qed.

(** X20. Neither [chat] nor [stream] ever changes the settings of the
    client, whatever the remote answers. *)
Theorem X20_settings_are_never_changed payload st :
  (let '(_, st', _) := client.chat payload st in _settings (self st') = _settings (self st))
  /\ (let '(_, st', _) := client.stream payload st in
      _settings (self st') = _settings (self st)).
Proof.
  split.
  - rewrite chat_decorator, _decorator_retry_once. apply retry_once_settings.
    intros s. unfold invoke. pose proof (chat_call_shape
      (client._parse_chat payload (Settings.model (_settings (self st)))) s) as Hs.
    destruct (chat_call _ s) as [[r s'] j]. by destruct Hs as (_ & ->).
  - rewrite stream_retry_once. apply retry_once_settings.
    intros s. unfold stream_attempt. rewrite bind_run, gets_run. cbv iota beta.
    rewrite after_nil, sync_run. cbv zeta.
    destruct (client_stream _ (world s)) as [[kind|resp] w]; [done|].
    destruct (stream_chat._check_response resp) as [[]|e]; [|done].
    rewrite iter_lines_run.
    pose proof (for_yield_chunk (lines resp) (mk_state (self s) w)) as Hl.
    destruct (for_ (lines resp) stream_chat.yield_chunk _) as [[[[]|e] s1] j1];
      destruct Hl as (-> & _); [by destruct (broken resp)|done].
Qed.

End MoreCalls.

(** ** The thread run endpoint *)

Section MoreThreads.
Context `{ThreadTransport}.

(** X22. The JSON of a thread run holds the [thread_id] argument under
    [thread_id], also when the options carry that key, and every other
    key as the options have it; without options it holds nothing
    else. *)
Theorem X22_the_thread_id_argument_wins
    (thread_id : string) (thread_options : option ThreadRunOptions)
    (access_token : option string) (key : string) :
  let kwargs := post_threads_run._get_kwargs thread_id thread_options access_token in
  t_json kwargs !! "thread_id" = Some (json_str thread_id)
  /\ (key <> "thread_id" ->
      t_json kwargs !! key
      = match thread_options with
        | Some options => ThreadRunOptions_dict options !! key
        | None => None
        end)
  /\ t_headers kwargs = build_headers access_token
  /\ t_method kwargs = "POST" /\ t_url kwargs = "/threads/run".
Proof.
  unfold post_threads_run._get_kwargs. simpl. split_and!; try done.
  - by rewrite lookup_insert_eq.
  - intros Hkey. rewrite lookup_insert_ne by done. by destruct thread_options.
Qed.

(** X23. For a response that is not OK the thread endpoint and the
    chat endpoint raise the same exception with the same arguments. *)
Theorem X23_both_endpoints_refuse_alike (resp : response) :
  status_code resp <> OK ->
  exists e,
    post_threads_run._build_response resp = Raise e
    /\ post_chat._build_response resp = Raise e
    /\ e = (if status_code resp =? UNAUTHORIZED then AuthenticationError else ResponseError)
             (mk_args (r_url resp) (status_code resp) (content resp) (r_headers resp)).
Proof.
  intros Hok. unfold post_threads_run._build_response, post_chat._build_response.
  destruct (Z.eqb_spec (status_code resp) OK); [done|].
  destruct (status_code resp =? UNAUTHORIZED); by eexists.
Qed.

(** X24. [post_threads_run.sync] returns a run only for an OK response
    whose content parses, raises [AuthenticationError] only for
    UNAUTHORIZED, and an [httpx] error only when the transport gave no
    response; the remote moves by that one request. *)
Theorem X24_a_thread_run_is_returned_only_for_ok
    (thread_id : string) (thread_options : option ThreadRunOptions)
    (access_token : option string) (w : W) :
  let kwargs := post_threads_run._get_kwargs thread_id thread_options access_token in
  let '(r, w') := post_threads_run.sync thread_id thread_options access_token w in
  (forall run,
     r = Ok run ->
     exists resp,
       client_request_thread kwargs w = (inr resp, w')
       /\ status_code resp = OK
       /\ ThreadRunResponse_of_json (content resp) = Some run)
  /\ (forall a,
        r = Raise (AuthenticationError a) ->
        exists resp,
          client_request_thread kwargs w = (inr resp, w')
          /\ status_code resp = UNAUTHORIZED
          /\ a = mk_args (r_url resp) UNAUTHORIZED (content resp) (r_headers resp))
  /\ (forall kind,
        r = Raise (HTTPError kind) -> client_request_thread kwargs w = (inl kind, w')).
Proof.
  intros kwargs. unfold post_threads_run.sync. fold kwargs. cbv zeta.
  destruct (client_request_thread kwargs w) as [[kind|resp] w1] eqn:Hreq.
  { split_and!; intros; by simplify_eq. }
  unfold post_threads_run._build_response.
  destruct (Z.eqb_spec (status_code resp) OK) as [Hok|Hok].
  - destruct (ThreadRunResponse_of_json (content resp)) as [c|] eqn:Hc;
      split_and!; try done; intros; simplify_eq; by eauto.
  - destruct (Z.eqb_spec (status_code resp) UNAUTHORIZED) as [Hun|Hun];
      split_and!; try done; intros; simplify_eq.
    exists resp. by rewrite Hun.
Qed.

End MoreThreads.
(** ** The asynchronous endpoints *)

Section MoreVariants.
Context `{ThreadTransport}.

(** X25. When the asynchronous transport answers as the synchronous
    one does, each [asyncio] endpoint gives what its [sync] twin gives,
    for every credential and every identity header: same outcome, same
    state, same journal. *)
Theorem X25_asyncio_endpoints_agree_with_sync :
  (forall kwargs w, aclient_request kwargs w = client_request kwargs w) ->
  (forall kwargs w, aclient_stream kwargs w = client_stream kwargs w) ->
  (forall kwargs w, aclient_request_thread kwargs w = client_request_thread kwargs w) ->
  (forall chat access_token client_id session_id request_id st,
     post_chat.asyncio chat access_token client_id session_id request_id st
     = post_chat.sync chat access_token client_id session_id request_id st)
  /\ (forall chat access_token client_id session_id request_id st,
        stream_chat.asyncio chat access_token client_id session_id request_id st
        = stream_chat.sync chat access_token client_id session_id request_id st)
  /\ (forall thread_id thread_options access_token w,
        post_threads_run.asyncio thread_id thread_options access_token w
        = post_threads_run.sync thread_id thread_options access_token w).
Proof.
  intros Hrequest Hstream Hthread. split_and!.
  - intros. unfold post_chat.asyncio, post_chat.sync. cbv zeta.
    apply bind_ext; [|done]. intros s.
    unfold post_chat.arequest_, post_chat.request_. by rewrite Hrequest.
  - intros. unfold stream_chat.asyncio, stream_chat.sync. cbv zeta.
    apply bind_ext; [|done]. intros s.
    unfold stream_chat.astream_, stream_chat.stream_. by rewrite Hstream.
  - intros. unfold post_threads_run.asyncio, post_threads_run.sync. by rewrite Hthread.
Qed.

End MoreVariants.

(** ** More runs against the scripted remote *)

Section MoreScriptedRuns.
Import Scripted Cases.

(** X1 on an event line. *)
Lemma X1_lines_of_other_fields_are_ignored_witness :
  "event: message" <> "data"
  /\ (forall value, "event: message" <> "data: " +:+ value)
  /\ stream_chat._parse_chunk "event: message" = Ok None.
Proof.
  assert (Hbare : "event: message" <> "data") by discriminate.
  assert (Hdata : forall value, "event: message" <> "data: " +:+ value)
    by (intros value; discriminate).
  exact (conj Hbare (conj Hdata
    (X1_lines_of_other_fields_are_ignored "event: message" Hbare Hdata))).
Defined.

(** X2 on two chunks, the second with a separator inside. *)
Lemma X2_framed_values_decode_in_order_witness :
  let values := [chunk_json; "{note: yes}"] in
  Forall2 (fun value chunk => value <> "[DONE]" /\ parse_raw value = Some chunk) values values
  /\ for_ (map (String.append "data: ") values) stream_chat.yield_chunk rejected_once
     = (Ok tt, rejected_once, map Yield values).
Proof.
  intros values.
  assert (Hvalues : Forall2
            (fun value chunk => value <> "[DONE]" /\ parse_raw value = Some chunk)
            values values).
  { repeat constructor; discriminate. }
  exact (conj Hvalues (X2_framed_values_decode_in_order values values rejected_once Hvalues)).
Defined.

(** X3 on an event line between two data lines. *)
Lemma X3_lines_that_yield_nothing_are_transparent_witness :
  stream_chat._parse_chunk "event: message" = Ok None
  /\ stream_chat.iter_lines
       (with_lines malformed_in_the_middle ([data_line] ++ "event: message" :: [data_line]))
       stream_chat.yield_chunk rejected_once
     = stream_chat.iter_lines
         (with_lines malformed_in_the_middle ([data_line] ++ [data_line]))
         stream_chat.yield_chunk rejected_once.
Proof.
  exact (conj eq_refl
    (X3_lines_that_yield_nothing_are_transparent malformed_in_the_middle
       [data_line] [data_line] "event: message" rejected_once eq_refl)).
Defined.

(** X6 on a rejection that has a body of its own. *)
Lemma X6_a_refused_stream_yields_nothing_witness :
  let kwargs := stream_chat._get_kwargs hello (Some "static") None None None in
  let resp :=
    mk_response "/chat/completions" 401 {[ "content-type" := "text/event-stream" ]}
      "denied" [data_line] None in
  client_stream kwargs (world stream_rejected) = (inr resp, mk_remote [] [] [])
  /\ status_code resp <> OK
  /\ stream_chat.sync hello (Some "static") None None None stream_rejected
     = (Raise (AuthenticationError
                 (mk_args "/chat/completions" 401 "" {[ "content-type" := "text/event-stream" ]})),
        mk_state (self stream_rejected) (mk_remote [] [] []), [Stream kwargs]).
Proof.
  intros kwargs resp.
  assert (Hstatus : status_code resp <> OK) by discriminate.
  exact (conj eq_refl (conj Hstatus
    (X6_a_refused_stream_yields_nothing hello (Some "static") None None None
       stream_rejected resp (mk_remote [] [] []) eq_refl Hstatus))).
Defined.

(** X15 on a first call that the server then fails: the token stays. *)
Lemma X15_first_call_signs_in_with_the_credentials_witness :
  client._use_auth (self first_call_fails) = true
  /\ _access_token (self first_call_fails) = None
  /\ truthy (Settings.credentials (_settings (self first_call_fails))) = true
  /\ let '(r, st', j) := client.chat hello first_call_fails in
     _access_token (self st') = Some fresh
     /\ count is_post j = 1%nat /\ password_grants (world st') = [Ok granted].
Proof.
  do 3 (split; [reflexivity|]).
  pose proof (X15_first_call_signs_in_with_the_credentials hello first_call_fails
                eq_refl eq_refl eq_refl) as Hthm.
  vm_compute in Hthm. vm_compute. destruct Hthm as [Htoken _]. by repeat split.
Defined.

(** X16 on a client that has a user name and a password. *)
Lemma X16_first_call_signs_in_with_the_password_witness :
  client._use_auth (self password_start) = true
  /\ _access_token (self password_start) = None
  /\ truthy (Settings.credentials (_settings (self password_start))) = false
  /\ truthy (Settings.user (_settings (self password_start))) = true
  /\ truthy (Settings.password (_settings (self password_start))) = true
  /\ let '(r, st', j) := client.chat hello password_start in
     _access_token (self st') = Some (AccessToken.mk "by-password" 1700000000000)
     /\ r = Ok completion_json.
Proof.
  do 5 (split; [reflexivity|]).
  pose proof (X16_first_call_signs_in_with_the_password hello password_start
                eq_refl eq_refl eq_refl eq_refl eq_refl) as Hthm.
  vm_compute in Hthm. vm_compute. destruct Hthm as [Htoken _]. by split.
Defined.

(** X17 on a client with empty credentials and no password. *)
Lemma X17_nothing_to_sign_in_with_witness :
  client._use_auth (self half_start) = true
  /\ _access_token (self half_start) = None
  /\ truthy (Settings.credentials (_settings (self half_start))) = false
  /\ truthy (Settings.user (_settings (self half_start)))
     && truthy (Settings.password (_settings (self half_start))) = false
  /\ let '(r, st', j) := client.chat hello half_start in
     self st' = self half_start /\ count is_refresh j = 1%nat /\ count is_post j = 0%nat.
Proof.
  do 4 (split; [reflexivity|]).
  pose proof (X17_nothing_to_sign_in_with hello half_start
                eq_refl eq_refl eq_refl eq_refl) as Hthm.
  vm_compute in Hthm. vm_compute. destruct Hthm as [Hself _]. by repeat split.
Defined.

(** X18 on a static token that the server rejects. *)
Lemma X18_a_static_token_is_not_sent_again_witness :
  let chat := client._parse_chat hello (Some "GigaChat-Pro") in
  client._use_auth (self static_rejected) = true
  /\ client._check_validity_token (self static_rejected) = true
  /\ truthy (Settings.credentials (_settings (self static_rejected))) = false
  /\ truthy (Settings.user (_settings (self static_rejected)))
     && truthy (Settings.password (_settings (self static_rejected))) = false
  /\ client_request (post_chat._get_kwargs chat (Some "static") None None None)
       (world static_rejected)
     = (unauthorized, mk_remote [completion] [] [])
  /\ let '(r, st', j) := client.chat hello static_rejected in
     _access_token (self st') = None /\ r = Ok completion_json /\ count is_call j = 2%nat.
Proof.
  intros chat. do 5 (split; [reflexivity|]).
  pose proof (X18_a_static_token_is_not_sent_again hello static_rejected
                (mk_response "/chat/completions" 401 ∅ "" [] None)
                (mk_remote [completion] [] [])
                eq_refl eq_refl eq_refl eq_refl eq_refl eq_refl) as Hthm.
  vm_compute in Hthm. vm_compute. destruct Hthm as [Htoken _]. by repeat split.
Defined.

(** X19 on a token rejected once. *)
Lemma X19_the_retry_carries_the_new_token_witness :
  client._use_auth (self rejected_once) = true
  /\ client._check_validity_token (self rejected_once) = true
  /\ truthy (Settings.credentials (_settings (self rejected_once))) = true
  /\ client_request (post_chat._get_kwargs hello (Some "stale") None None None)
       (world rejected_once)
     = (unauthorized, mk_remote [completion] [Ok fresh] [])
  /\ post_auth_sync "https://auth.example/oauth" "c2VjcmV0" "GIGACHAT_API_PERS"
       (mk_remote [completion] [Ok fresh] [])
     = (Ok fresh, mk_remote [completion] [] [])
  /\ let '(r, st', j) := client.chat hello rejected_once in
     _access_token (self st') = Some fresh /\ r = Ok completion_json.
Proof.
  do 5 (split; [reflexivity|]).
  pose proof (X19_the_retry_carries_the_new_token hello rejected_once
                (mk_response "/chat/completions" 401 ∅ "" [] None)
                (mk_remote [completion] [Ok fresh] []) fresh (mk_remote [completion] [] [])
                eq_refl eq_refl eq_refl eq_refl eq_refl eq_refl) as Hthm.
  vm_compute in Hthm. vm_compute. destruct Hthm as [Htoken _]. by split.
Defined.

(** X21 on a stream rejected at its opening and served the second time. *)
Lemma X21_a_rejected_stream_is_reopened_with_the_new_token_witness :
  let served := mk_remote [inr (body_of "text/event-stream" [data_line])] [Ok fresh] [] in
  let opened := mk_remote [inr (body_of "text/event-stream" [data_line])] [] [] in
  client._use_auth (self stream_rejected_once) = true
  /\ client._check_validity_token (self stream_rejected_once) = true
  /\ truthy (Settings.credentials (_settings (self stream_rejected_once))) = true
  /\ client_stream (stream_chat._get_kwargs hello (Some "stale") None None None)
       (world stream_rejected_once)
     = (unauthorized, served)
  /\ post_auth_sync "https://auth.example/oauth" "c2VjcmV0" "GIGACHAT_API_PERS" served
     = (Ok fresh, opened)
  /\ client.stream hello stream_rejected_once =
       after [Stream (stream_chat._get_kwargs hello (Some "stale") None None None);
              Log "WARNING" "AUTHENTICATION ERROR"; Reset; Refresh;
              PostAuth "https://auth.example/oauth" "c2VjcmV0" "GIGACHAT_API_PERS";
              Log "INFO" "OAUTH UPDATE TOKEN"]
         (stream_chat.sync hello (Some "fresh") None None None
            (holds stream_rejected_once (Some fresh) opened)).
Proof.
  intros served opened.
  exact (conj eq_refl (conj eq_refl (conj eq_refl (conj eq_refl (conj eq_refl
    (X21_a_rejected_stream_is_reopened_with_the_new_token hello stream_rejected_once
       (mk_response "/chat/completions" 401 ∅ "" [] None) served fresh opened
       eq_refl eq_refl eq_refl eq_refl eq_refl eq_refl)))))).
Defined.

(** X23 on a server failure. *)
Lemma X23_both_endpoints_refuse_alike_witness :
  let resp := mk_response "/threads/run" 500 ∅ "oops" [] None in
  status_code resp <> OK
  /\ exists e,
       post_threads_run._build_response resp = Raise e
       /\ post_chat._build_response resp = Raise e
       /\ e = ResponseError (mk_args "/threads/run" 500 "oops" ∅).
Proof.
  intros resp.
  assert (Hstatus : status_code resp <> OK) by discriminate.
  exact (conj Hstatus (X23_both_endpoints_refuse_alike resp Hstatus)).
Defined.

(** A thread run whose options name another thread. *)
Example thread_id_in_the_options :
  let options : gmap string string := {[ "thread_id" := q "other"; "model" := q "GigaChat" ]} in
  let kwargs := post_threads_run._get_kwargs "mine" (Some options) (Some "static") in
  t_json kwargs !! "thread_id" = Some (q "mine")
  /\ t_json kwargs !! "model" = Some (q "GigaChat")
  /\ size (t_json kwargs) = 2%nat.
Proof. by vm_compute. Qed.

(** X25 on the scripted remote, whose transports are one. *)
Lemma X25_asyncio_endpoints_agree_with_sync_witness :
  (forall kwargs w, aclient_request kwargs w = client_request kwargs w)
  /\ (forall kwargs w, aclient_stream kwargs w = client_stream kwargs w)
  /\ (forall kwargs w, aclient_request_thread kwargs w = client_request_thread kwargs w)
  /\ stream_chat.asyncio hello (Some "stale") (Some "app") None None data_after_sentinel
     = stream_chat.sync hello (Some "stale") (Some "app") None None data_after_sentinel
  /\ post_threads_run.asyncio "mine" None (Some "static") (world static_rejected)
     = post_threads_run.sync "mine" None (Some "static") (world static_rejected).
Proof.
  pose proof (X25_asyncio_endpoints_agree_with_sync
                (fun _ _ => eq_refl) (fun _ _ => eq_refl) (fun _ _ => eq_refl)) as Hthm.
  do 3 (split; [reflexivity|]).
  split; [exact (proj1 (proj2 Hthm) _ _ _ _ _ _) | exact (proj2 (proj2 Hthm) _ _ _ _)].
Defined.

(** A static token rejected twice: nothing is held afterwards, and
    the next call starts with a refresh. *)
Example static_token_rejected_twice :
  let '(r, st', j) := client.chat hello static_rejected_twice in
  r = Raise (AuthenticationError (mk_args "/chat/completions" 401 "" ∅))
  /\ count is_reset j = 1%nat
  /\ _access_token (self st') = None
  /\ let '(r2, _, j2) := client.chat hello st' in
     r2 = Ok completion_json /\ head j2 = Some Refresh.
Proof. by vm_compute. Qed.

End MoreScriptedRuns.
